(** * cloud-based-oidc: authentication and role-derived authorization

    A shallow embedding of the NextAuth configuration
    ([pages/api/auth/[...nextauth].ts]), of the [withAuth] wrapper for
    [getServerSideProps] and of the role predicates of [components/Layout.tsx],
    followed by the properties of the pipeline.

    Layout of the development:
    - [JS]: the pieces of the JavaScript runtime the code calls
      ([String.prototype.split], [Buffer.from(_, 'base64')], [toString],
      [JSON.parse], property access, truthiness);
    - [Console]: a writer/exception monad for [console.log], [console.error],
      [throw] and [try]/[catch];
    - [NextAuthConfig]: [fetchUserRoles], [profile], the [jwt] and [session]
      callbacks;
    - [Guard]: [withAuth], over a state monad for the request's effects;
    - [Layout]: the [isAdmin]/[isStaff] predicates;
    - [Spec], [Sample], [Flow]: the vocabulary of the specification, sample
      tokens, profiles and sessions, and notions derived from the code;
    - [Pages], [Navigation], [ServerProps]: the pages that test roles, the
      navigation bar, and two [getServerSideProps];
    - the modules that follow hold the properties. *)

From Stdlib Require Import String Ascii List ZArith NArith Bool Lia.
Import ListNotations.

Local Open Scope string_scope.

(** ** The JavaScript runtime used by the code *)
Module JS.

(** Two models of a JavaScript string are used.  Where the code only hands a
    string on, compares it with another or tests it for emptiness (ids,
    names, e-mail addresses, role names, routes), it is a Rocq [string].
    Where the code looks at the characters (the access token and all that
    is decoded from it), it is the list of its UTF-16 code units, a
    [ustring]. *)

(** [undefined] is [None] throughout. *)
Definition undefined {A : Type} : option A := None.

(** [!!s] for [s : string | undefined]: the empty string and [undefined] are
    falsy. *)
Definition truthy_string (s : option string) : bool :=
  match s with
  | Some EmptyString => false
  | Some _ => true
  | None => false
  end.

(** [arr.includes(x)] on an array of strings. *)
Definition includes (arr : list string) (x : string) : bool :=
  existsb (String.eqb x) arr.

(** [`${x}`] for [x : string | undefined]. *)
Definition template (x : option string) : string :=
  match x with
  | Some s => s
  | None => "undefined"
  end.

(** *** Strings as code units *)

Definition ustring : Type := list N.

(** The code units of a literal. *)
Fixpoint units (s : string) : ustring :=
  match s with
  | EmptyString => []
  | String c rest => N_of_ascii c :: units rest
  end.

Fixpoint ustring_eqb (a b : ustring) : bool :=
  match a, b with
  | [], [] => true
  | x :: a', y :: b' => (x =? y)%N && ustring_eqb a' b'
  | _, _ => false
  end.

(** [!!s] for a string of code units or [undefined]. *)
Definition truthy_units (s : option ustring) : bool :=
  match s with
  | Some (_ :: _) => true
  | _ => false
  end.

(** [`${x}`] *)
Definition template_units (x : option ustring) : ustring :=
  match x with
  | Some s => s
  | None => units "undefined"
  end.

(** [s.split(sep)] for a separator of one code unit. *)
Fixpoint split (sep : N) (s : ustring) : list ustring :=
  match s with
  | [] => [[]]
  | c :: rest =>
      if (c =? sep)%N then [] :: split sep rest
      else match split sep rest with
           | [] => [[c]]
           | hd :: tl => (c :: hd) :: tl
           end
  end.

Definition dot : N := 46.
Definition space : N := 32.

(** [arr.includes(x)] for a literal [x]. *)
Definition includes_literal (arr : list ustring) (x : string) : bool :=
  existsb (ustring_eqb (units x)) arr.

(** *** [Buffer.from(s, 'base64')]

    Node's decoder takes of each code unit the low eight bits.  It is
    lenient: it reads the standard and the URL-safe alphabet alike, passes
    over every character outside of them, stops at the first [=], and never
    throws. *)
Definition low_byte (c : N) : N := N.land c 255.

Definition unbase64 (c : N) : option N :=
  let n := low_byte c in
  if (65 <=? n)%N && (n <=? 90)%N then Some (n - 65)%N
  else if (97 <=? n)%N && (n <=? 122)%N then Some (n - 71)%N
  else if (48 <=? n)%N && (n <=? 57)%N then Some (n + 4)%N
  else if (n =? 43)%N || (n =? 45)%N then Some 62%N
  else if (n =? 47)%N || (n =? 95)%N then Some 63%N
  else None.

Fixpoint sextets (s : ustring) : list N :=
  match s with
  | [] => []
  | c :: rest =>
      if (low_byte c =? 61)%N then []
      else match unbase64 c with
           | Some v => v :: sextets rest
           | None => sextets rest
           end
  end.

Definition byte1 (hi lo : N) : N :=
  N.lor (N.shiftl (N.land hi 63) 2) (N.shiftr (N.land lo 48) 4).
Definition byte2 (hi lo : N) : N :=
  N.lor (N.shiftl (N.land hi 15) 4) (N.shiftr (N.land lo 60) 2).
Definition byte3 (hi lo : N) : N :=
  N.lor (N.shiftl (N.land hi 3) 6) (N.land lo 63).

Fixpoint base64_bytes (l : list N) : list N :=
  match l with
  | a :: b :: c :: d :: rest =>
      byte1 a b :: byte2 b c :: byte3 c d :: base64_bytes rest
  | [a; b; c] => [byte1 a b; byte2 b c]
  | [a; b] => [byte1 a b]
  | _ => []
  end.

(** The bytes of the buffer. *)
Definition Buffer_from_base64 (s : ustring) : list N :=
  base64_bytes (sextets s).

(** *** [buffer.toString()]

    UTF-8 decoding as V8 does it: an ill-formed sequence gives U+FFFD for
    each of its maximal well-formed beginnings, and the byte that broke it
    is read again as the start of a sequence; a code point beyond the basic
    plane gives a surrogate pair. *)
Definition replacement : N := 65533.

Definition code_units (cp : N) : ustring :=
  if (cp <? 65536)%N then [cp]
  else [(55296 + (cp - 65536) / 1024)%N; (56320 + (cp - 65536) mod 1024)%N].

(** What a byte starts: a character of its own, a sequence with its first
    bits, the number of bytes to come and the bounds of the next one, or
    nothing. *)
Inductive lead : Type :=
| Single (cp : N)
| Lead (cp : N) (more : nat) (lower upper : N)
| Stray.

Definition classify (b : N) : lead :=
  if (b <=? 127)%N then Single b
  else if (194 <=? b)%N && (b <=? 223)%N then
    Lead (N.land b 31) 1 128 191
  else if (224 <=? b)%N && (b <=? 239)%N then
    Lead (N.land b 15) 2
      (if (b =? 224)%N then 160%N else 128%N)
      (if (b =? 237)%N then 159%N else 191%N)
  else if (240 <=? b)%N && (b <=? 244)%N then
    Lead (N.land b 7) 3
      (if (b =? 240)%N then 144%N else 128%N)
      (if (b =? 244)%N then 143%N else 191%N)
  else Stray.

Fixpoint utf8_decode (bytes : list N) (cp : N) (more : nat)
  (lower upper : N) : ustring :=
  match bytes with
  | [] =>
      match more with
      | O => []
      | S _ => [replacement]
      end
  | b :: rest =>
      match more with
      | O =>
          match classify b with
          | Single c => c :: utf8_decode rest 0%N O 128%N 191%N
          | Lead c n lo up => utf8_decode rest c n lo up
          | Stray => replacement :: utf8_decode rest 0%N O 128%N 191%N
          end
      | S more' =>
          if (lower <=? b)%N && (b <=? upper)%N then
            let cp' := (cp * 64 + N.land b 63)%N in
            match more' with
            | O => (code_units cp' ++ utf8_decode rest 0%N O 128%N 191%N)%list
            | S _ => utf8_decode rest cp' more' 128%N 191%N
            end
          else
            replacement ::
            match classify b with
            | Single c => c :: utf8_decode rest 0%N O 128%N 191%N
            | Lead c n lo up => utf8_decode rest c n lo up
            | Stray => replacement :: utf8_decode rest 0%N O 128%N 191%N
            end
      end
  end.

Definition Buffer_toString (bytes : list N) : ustring :=
  utf8_decode bytes 0%N O 128%N 191%N.

Definition Buffer_from_base64_toString (s : ustring) : ustring :=
  Buffer_toString (Buffer_from_base64 s).

(** The URL-safe alphabet proper, for stating what a strict decoder would
    accept: letters, digits, [-] and [_]. *)
Definition base64url_char (n : N) : bool :=
  ((65 <=? n)%N && (n <=? 90)%N) || ((97 <=? n)%N && (n <=? 122)%N)
  || ((48 <=? n)%N && (n <=? 57)%N) || (n =? 45)%N || (n =? 95)%N.

Definition valid_base64url (s : ustring) : bool :=
  forallb base64url_char s
  && negb (Nat.eqb (Nat.modulo (length s) 4) 1).

(** *** [JSON.parse]

    A number literal is kept exactly, as [(-1)^neg * mant * 10^exp10]. *)
Record number : Type := mkNumber { neg : bool; mant : N; exp10 : Z }.

#[warnings="-register-all"]
Inductive json : Type :=
| JNull
| JBool (b : bool)
| JNum (n : number)
| JStr (s : ustring)
| JArr (items : list json)
| JObj (members : list (ustring * json)).

Inductive error : Type := SyntaxError | TypeError | RangeError.

Definition dquote : N := 34.
Definition backslash : N := 92.

(** The code unit of an ASCII character. *)
Definition chr (c : ascii) : N := N_of_ascii c.

Definition is_ws (n : N) : bool :=
  (n =? 32)%N || (n =? 9)%N || (n =? 10)%N || (n =? 13)%N.

Fixpoint skip_ws (s : ustring) : ustring :=
  match s with
  | [] => s
  | c :: rest => if is_ws c then skip_ws rest else s
  end.

Definition digit (n : N) : option N :=
  if (48 <=? n)%N && (n <=? 57)%N then Some (n - 48)%N else None.

Definition hex_digit (n : N) : option N :=
  if (48 <=? n)%N && (n <=? 57)%N then Some (n - 48)%N
  else if (65 <=? n)%N && (n <=? 70)%N then Some (n - 55)%N
  else if (97 <=? n)%N && (n <=? 102)%N then Some (n - 87)%N
  else None.

(** A maximal run of decimal digits: its value on top of [acc], how many
    digits were read, and the rest of the input. *)
Fixpoint digits (s : ustring) (acc : N) (count : nat)
  : N * nat * ustring :=
  match s with
  | [] => (acc, count, s)
  | c :: rest =>
      match digit c with
      | Some d => digits rest (acc * 10 + d)%N (S count)
      | None => (acc, count, s)
      end
  end.

Definition parse_exponent (s : ustring) : option (Z * ustring) :=
  match s with
  | c :: rest =>
      if (c =? chr "e")%N || (c =? chr "E")%N then
        let '(minus, rest1) :=
          match rest with
          | sg :: r =>
              if (sg =? chr "-")%N then (true, r)
              else if (sg =? chr "+")%N then (false, r)
              else (false, rest)
          | [] => (false, rest)
          end in
        let '(v, n, rest2) := digits rest1 0%N 0%nat in
        match n with
        | O => None
        | S _ => Some (if minus then (- Z.of_N v)%Z else Z.of_N v, rest2)
        end
      else Some (0%Z, s)
  | [] => Some (0%Z, s)
  end.

Definition parse_fraction (int_part : N) (s : ustring)
  : option (N * nat * ustring) :=
  match s with
  | c :: rest =>
      if (c =? chr ".")%N then
        let '(v, n, rest1) := digits rest int_part 0%nat in
        match n with
        | O => None
        | S _ => Some (v, n, rest1)
        end
      else Some (int_part, 0%nat, s)
  | [] => Some (int_part, 0%nat, s)
  end.

Definition parse_number (s : ustring) : option (number * ustring) :=
  let '(minus, s1) :=
    match s with
    | c :: r => if (c =? chr "-")%N then (true, r) else (false, s)
    | [] => (false, s)
    end in
  match s1 with
  | [] => None
  | c :: r =>
      match digit c with
      | None => None
      | Some d =>
          let '(ip, s2) :=
            if (d =? 0)%N then (0%N, r)
            else let '(v, _, r') := digits r d 1%nat in (v, r') in
          match parse_fraction ip s2 with
          | None => None
          | Some (m, fd, s3) =>
              match parse_exponent s3 with
              | None => None
              | Some (e, s4) =>
                  Some (mkNumber minus m (e - Z.of_nat fd)%Z, s4)
              end
          end
      end
  end.

Definition simple_escape (c : N) : option N :=
  if (c =? dquote)%N then Some dquote
  else if (c =? backslash)%N then Some backslash
  else if (c =? chr "/")%N then Some (chr "/")
  else if (c =? chr "b")%N then Some 8%N
  else if (c =? chr "f")%N then Some 12%N
  else if (c =? chr "n")%N then Some 10%N
  else if (c =? chr "r")%N then Some 13%N
  else if (c =? chr "t")%N then Some 9%N
  else None.

Definition hex4 (a b c d : N) : option N :=
  match hex_digit a, hex_digit b, hex_digit c, hex_digit d with
  | Some x, Some y, Some z, Some w =>
      Some (((x * 16 + y) * 16 + z) * 16 + w)%N
  | _, _, _, _ => None
  end.

Definition prepend (c : N) (r : option (ustring * ustring))
  : option (ustring * ustring) :=
  match r with
  | Some (body, rest) => Some (c :: body, rest)
  | None => None
  end.

(** The characters of a string literal after its opening quote, up to and
    including the closing one; a [\uXXXX] escape stands for one code
    unit. *)
Fixpoint parse_string_body (s : ustring) : option (ustring * ustring) :=
  match s with
  | [] => None
  | c :: rest =>
      if (c =? dquote)%N then Some ([], rest)
      else if (c =? backslash)%N then
        match rest with
        | [] => None
        | e :: rest1 =>
            match simple_escape e with
            | Some ch => prepend ch (parse_string_body rest1)
            | None =>
                if (e =? chr "u")%N then
                  match rest1 with
                  | h1 :: h2 :: h3 :: h4 :: rest2 =>
                      match hex4 h1 h2 h3 h4 with
                      | Some u => prepend u (parse_string_body rest2)
                      | None => None
                      end
                  | _ => None
                  end
                else None
            end
        end
      else if (c <? 32)%N then None
      else prepend c (parse_string_body rest)
  end.

Fixpoint strip_prefix (p s : ustring) : option ustring :=
  match p, s with
  | [], _ => Some s
  | a :: p', b :: s' => if (a =? b)%N then strip_prefix p' s' else None
  | _ :: _, [] => None
  end.

Definition parse_literal (s : ustring) : option (json * ustring) :=
  match strip_prefix (units "true") s with
  | Some r => Some (JBool true, r)
  | None =>
      match strip_prefix (units "false") s with
      | Some r => Some (JBool false, r)
      | None =>
          match strip_prefix (units "null") s with
          | Some r => Some (JNull, r)
          | None =>
              match parse_number s with
              | Some (n, r) => Some (JNum n, r)
              | None => None
              end
          end
      end
  end.

(** Recursive descent, on fuel; [JsonParser.JSON_parse_fuel] shows that the
    fuel [JSON_parse] supplies is enough for every text. *)
Fixpoint parse_value (fuel : nat) (s : ustring)
  : option (json * ustring) :=
  match fuel with
  | O => None
  | S fuel' =>
      match skip_ws s with
      | [] => None
      | c :: r =>
          if (c =? chr "{")%N then
            match skip_ws r with
            | [] => None
            | c1 :: r1 =>
                if (c1 =? chr "}")%N then Some (JObj [], r1)
                else parse_members fuel' r []
            end
          else if (c =? chr "[")%N then
            match skip_ws r with
            | [] => None
            | c1 :: r1 =>
                if (c1 =? chr "]")%N then Some (JArr [], r1)
                else parse_elements fuel' r []
            end
          else if (c =? dquote)%N then
            match parse_string_body r with
            | Some (str, r1) => Some (JStr str, r1)
            | None => None
            end
          else parse_literal (c :: r)
      end
  end
with parse_elements (fuel : nat) (s : ustring) (acc : list json)
  : option (json * ustring) :=
  match fuel with
  | O => None
  | S fuel' =>
      match parse_value fuel' s with
      | None => None
      | Some (v, r) =>
          match skip_ws r with
          | [] => None
          | c :: r1 =>
              if (c =? chr ",")%N then parse_elements fuel' r1 (v :: acc)
              else if (c =? chr "]")%N then
                Some (JArr (rev (v :: acc)), r1)
              else None
          end
      end
  end
with parse_members (fuel : nat) (s : ustring) (acc : list (ustring * json))
  : option (json * ustring) :=
  match fuel with
  | O => None
  | S fuel' =>
      match skip_ws s with
      | [] => None
      | c :: r =>
          if (c =? dquote)%N then
            match parse_string_body r with
            | None => None
            | Some (key, r1) =>
                match skip_ws r1 with
                | [] => None
                | c1 :: r2 =>
                    if (c1 =? chr ":")%N then
                      match parse_value fuel' r2 with
                      | None => None
                      | Some (v, r3) =>
                          match skip_ws r3 with
                          | [] => None
                          | c3 :: r4 =>
                              if (c3 =? chr ",")%N then
                                parse_members fuel' r4 ((key, v) :: acc)
                              else if (c3 =? chr "}")%N then
                                Some (JObj (rev ((key, v) :: acc)), r4)
                              else None
                          end
                      end
                    else None
                end
            end
          else None
      end
  end.

(** [JSON.parse(text)]: [None] stands for the [SyntaxError] it throws. *)
Definition JSON_parse (text : ustring) : option json :=
  match parse_value (2 * length text + 2) text with
  | Some (v, rest) =>
      match skip_ws rest with
      | [] => Some v
      | _ :: _ => None
      end
  | None => None
  end.

(** How deep arrays and objects are nested in a value. *)
Fixpoint depth (v : json) : nat :=
  match v with
  | JArr items => S (fold_right (fun x acc => Nat.max (depth x) acc) O items)
  | JObj members =>
      S (fold_right
           (fun kv acc => Nat.max (match kv with (_, x) => depth x end) acc)
           O members)
  | _ => O
  end.

(** *** Property access and truthiness *)

(** The own property [key] of a parsed object: of two members with one key,
    the later one stays. *)
Fixpoint own_property (key : ustring) (members : list (ustring * json))
  : option json :=
  match members with
  | [] => None
  | (k, v) :: rest =>
      match own_property key rest with
      | Some v' => Some v'
      | None => if ustring_eqb k key then Some v else None
      end
  end.

(** [v.key] for a value [JSON.parse] returned and a [key] that no prototype
    defines (such as [scope]): a [TypeError] on [null], [undefined] on
    anything that is not an object holding the key. *)
Definition get_prop (v : json) (key : string) : error + option json :=
  match v with
  | JNull => inl TypeError
  | JObj members => inr (own_property (units key) members)
  | _ => inr undefined
  end.

(** A literal denotes the double [0] when its digits are all zero, or when it
    is at most [2^-1075], half of the least positive double. *)
Definition is_zero (n : number) : bool :=
  (mant n =? 0)%N
  || ((exp10 n <? 0)%Z
      && (Z.of_N (mant n) * 2 ^ 1075 <=? 10 ^ (- exp10 n))%Z).

(** [!!v] for [v] a parsed value or [undefined]. *)
Definition truthy (v : option json) : bool :=
  match v with
  | None => false
  | Some JNull => false
  | Some (JBool b) => b
  | Some (JNum n) => negb (is_zero n)
  | Some (JStr []) => false
  | Some (JStr (_ :: _)) => true
  | Some (JArr _) => true
  | Some (JObj _) => true
  end.

End JS.
(** ** The data model ([next-auth.d.ts] and the interfaces of
    [[...nextauth].ts])

    A field declared with [?] is an [option]; [None] is [undefined]. *)

Module Role.
Record t : Type := mk { id : string; name : string }.
End Role.

Module IdpUserInfo.
Record t : Type := mk {
  displayName : string;
  active : bool;
  emails : list (string * bool);
  givenName : string;
  familyName : string;
  formatted : string;
  status : string;
  idpType : string }.
End IdpUserInfo.

Module Identity.
Record t : Type := mk {
  provider : string;
  id : string;
  idpUserInfo : option IdpUserInfo.t }.
End Identity.

(** The [user] object of [Session] and [JWT], which is also what the
    provider's [profile] function returns. *)
Module User.
Record t : Type := mk {
  id : option string;
  name : option string;
  email : option string;
  image : option string;
  roles : option (list Role.t);
  email_verified : option bool;
  identities : option (list Identity.t) }.

(** [{}], the object [...undefined] spreads to. *)
Definition empty : t := mk None None None None None None None.
End User.

(** [Session]: the code reads [session.user?.roles], so [user] may be
    missing. *)
Module Session.
Record t : Type := mk {
  user : option User.t;
  expires : string;
  accessToken : option JS.ustring }.
End Session.

(** [IBMAppIDProfile] *)
Module Profile.
Record t : Type := mk {
  sub : option string;
  name : option string;
  email : option string;
  email_verified : option bool;
  given_name : option string;
  family_name : option string;
  roles : option (list Role.t);
  identities : option (list Identity.t) }.
End Profile.

(** [TokenInfo], and the fields of NextAuth's [Account] that are read. *)
Module TokenInfo.
Record t : Type := mk {
  access_token : option JS.ustring;
  id_token : option JS.ustring }.
End TokenInfo.

Module Account.
Record t : Type := mk {
  provider : string;
  access_token : option JS.ustring;
  id_token : option JS.ustring }.
End Account.

(** [JWT]: the two fields this application adds, and the claims NextAuth
    keeps besides them. *)
Module JWT.
Record t : Type := mk {
  user : option User.t;
  accessToken : option JS.ustring;
  claims : list (string * JS.json) }.
End JWT.

(** ** Console output and exceptions *)
Module Console.

Inductive arg : Type :=
| Text (s : string)
| Json (v : JS.json)       (* the text [JSON.stringify(v, null, 2)] returns *)
| Roles (l : list Role.t)
| Caught (e : JS.error).

Inductive line : Type :=
| Log (args : list arg)
| Error (args : list arg).

(** A computation writes lines to the console and then returns or throws. *)
Definition M (A : Type) : Type := (list line * (JS.error + A))%type.

Definition ret {A} (a : A) : M A := ([], inr a).

Definition throw {A} (e : JS.error) : M A := ([], inl e).

Definition bind {A B} (m : M A) (k : A -> M B) : M B :=
  match m with
  | (out, inl e) => (out, inl e)
  | (out, inr a) => let (out', r) := k a in ((out ++ out')%list, r)
  end.

Definition console_log (args : list arg) : M unit := ([Log args], inr tt).

Definition console_error (args : list arg) : M unit := ([Error args], inr tt).

(** [try { body } catch (e) { handler(e) }] *)
Definition try_catch {A} (body : M A) (handler : JS.error -> M A) : M A :=
  match body with
  | (out, inl e) => let (out', r) := handler e in ((out ++ out')%list, r)
  | (out, inr a) => (out, inr a)
  end.

(** What [JSON.parse] and a property access do inside a computation. *)
Definition JSON_parse (text : JS.ustring) : M JS.json :=
  match JS.JSON_parse text with
  | Some v => ret v
  | None => throw JS.SyntaxError
  end.

Definition get_prop (v : JS.json) (key : string) : M (option JS.json) :=
  match JS.get_prop v key with
  | inr x => ret x
  | inl e => throw e
  end.

(** [JSON.stringify(v, null, 2)] for a parsed value [v].  The call recurses
    on the nesting of [v] and throws a [RangeError] when the stack of the
    runtime is used up; [overflows] tells for which values that happens. *)
Definition JSON_stringify (overflows : JS.json -> bool) (v : JS.json)
  : M arg :=
  if overflows v then throw JS.RangeError else ret (Json v).

Definition output {A} (m : M A) : list line := fst m.
Definition result {A} (m : M A) : JS.error + A := snd m.

End Console.

Declare Scope console_scope.
Delimit Scope console_scope with console.
Notation "x <- m ;; k" := (Console.bind m (fun x => k))
  (at level 61, m at next level, right associativity) : console_scope.
Notation "m ;; k" := (Console.bind m (fun _ => k))
  (at level 61, right associativity) : console_scope.

(** ** [pages/api/auth/[...nextauth].ts] *)
Module NextAuthConfig.
Import Console.
Local Open Scope console_scope.

Section Runtime.

(** The values on which [JSON.stringify(_, null, 2)] throws a [RangeError]
    in the runtime at hand: those nested too deep for its stack.  Where the
    limit lies depends on how the process was started, so it is left
    open. *)
Variable stringify_overflows : JS.json -> bool.

Definition fetchUserRoles (userId : option string)
  (accessToken : option JS.ustring) : M (list Role.t) :=
  if negb (JS.truthy_string userId) || negb (JS.truthy_units accessToken)
  then
    console_error [Text "Missing userId or accessToken"] ;;
    ret []
  else
    (* past the test [accessToken] is a string *)
    let accessToken :=
      match accessToken with Some s => s | None => [] end in
    try_catch
      ((* Extract roles from the access token scope *)
       let payload := nth_error (JS.split JS.dot accessToken) 1 in
       if negb (JS.truthy_units payload) then
         console_error [Text "Invalid access token format"] ;;
         ret []
       else
         let payload :=
           match payload with Some s => s | None => [] end in
         try_catch
           (decodedToken <-
              JSON_parse (JS.Buffer_from_base64_toString payload) ;;
            text <- JSON_stringify stringify_overflows decodedToken ;;
            console_log [Text "Decoded access token:"; text] ;;
            scopes <- get_prop decodedToken "scope" ;;
            if negb (JS.truthy scopes) then
              console_log [Text "No scopes found in token"] ;;
              ret []
            else
              (* Convert scopes string to array and map to roles *)
              let scopeArray :=
                match scopes with
                | Some (JS.JStr s) => JS.split JS.space s
                | _ => []
                end in
              let roles := [] in
              (* Check for admin scope *)
              let roles :=
                if JS.includes_literal scopeArray "admin"
                then (roles ++ [Role.mk "admin" "admin"])%list else roles in
              (* Check for staff scope *)
              let roles :=
                if JS.includes_literal scopeArray "staff"
                then (roles ++ [Role.mk "staff" "staff"])%list else roles in
              (* Check for other role-related scopes *)
              let roles :=
                if JS.includes_literal scopeArray "appid_manage_roles"
                then (roles ++ [Role.mk "role_manager" "role_manager"])%list
                else roles in
              console_log [Text "Extracted roles from scopes:"; Roles roles] ;;
              ret roles)
           (fun e =>
              console_error [Text "Error decoding token payload:"; Caught e] ;;
              ret []))
      (fun error =>
         console_error [Text "Error processing roles:"; Caught error] ;;
         ret []).

Definition safelyFetchRoles (profile : Profile.t)
  (accessToken : option JS.ustring) : M (list Role.t) :=
  fetchUserRoles (Profile.sub profile) accessToken.

(** [a || b] on [string | undefined] operands with a string on the right. *)
Definition or_string (a : option string) (b : string) : string :=
  match a with
  | Some (String c r) => String c r
  | _ => b
  end.

Definition profile (profile : Profile.t) (tokens : TokenInfo.t) : M User.t :=
  (* Get roles from the access token *)
  roles <- fetchUserRoles (Profile.sub profile)
             (TokenInfo.access_token tokens) ;;
  console_log [Text "Profile roles:"; Roles roles] ;;
  ret {| User.id := Profile.sub profile;
         User.name :=
           Some (or_string (Profile.name profile)
                   (JS.template (Profile.given_name profile) ++ " "
                    ++ JS.template (Profile.family_name profile)));
         User.email := Profile.email profile;
         User.image := JS.undefined;
         User.roles := Some roles;
         User.email_verified := Profile.email_verified profile;
         User.identities :=
           Some (match Profile.identities profile with
                 | Some l => l
                 | None => []
                 end) |}.

(** [a ?? user.field ?? undefined]: [user] is only dereferenced when [a] is
    nullish, and dereferencing [undefined] throws. *)
Definition coalesce_user (a : option string) (user : option User.t)
  (field : User.t -> option string) : M (option string) :=
  match a with
  | Some s => ret (Some s)
  | None =>
      match user with
      | Some u => ret (field u)
      | None => throw JS.TypeError
      end
  end.

(** [callbacks.jwt] *)
Definition jwt (token : JWT.t) (account : option Account.t)
  (profile : option Profile.t) (user : option User.t) : M JWT.t :=
  match account, profile with
  | Some account, Some profile =>
      (* Get roles directly from the access token *)
      roles <- fetchUserRoles (Profile.sub profile)
                 (Account.access_token account) ;;
      console_log [Text "JWT callback roles:"; Roles roles] ;;
      let spread := match user with Some u => u | None => User.empty end in
      email <- coalesce_user (Profile.email profile) user User.email ;;
      name <- coalesce_user (Profile.name profile) user User.name ;;
      ret {| JWT.user :=
               Some {| User.id := Profile.sub profile;
                       User.name := name;
                       User.email := email;
                       User.image := User.image spread;
                       User.roles := Some roles;
                       User.email_verified := User.email_verified spread;
                       User.identities := User.identities spread |};
             JWT.accessToken := Account.access_token account;
             JWT.claims := JWT.claims token |}
  | _, _ => ret token
  end.

End Runtime.

(** [callbacks.session] *)
Definition session (session : Session.t) (token : JWT.t) : M Session.t :=
  let session :=
    match JWT.user token with
    | Some u =>
        {| Session.user := Some u;
           Session.expires := Session.expires session;
           Session.accessToken := Session.accessToken session |}
    | None => session
    end in
  ret {| Session.user := Session.user session;
         Session.expires := Session.expires session;
         Session.accessToken := JWT.accessToken token |}.

End NextAuthConfig.

(** ** [withAuth]: the wrapper for [getServerSideProps] *)
Module Guard.

Section WithAuth.

(** Whatever a request handler can read or change. *)
Variable World : Type.
(** [GetServerSidePropsContext] *)
Variable Context : Type.
(** The props of the page, and what a rejected promise carries. *)
Variable Props : Type.
Variable Exn : Type.

(** [GetServerSidePropsResult] *)
Inductive Result : Type :=
| props (p : Props)
| redirect (destination : string) (permanent : bool)
| notFound.

(** An [async] function of the context: it runs against the world, and
    resolves or rejects. *)
Definition GetServerSideProps : Type :=
  Context -> World -> (Exn + Result) * World.

(** [getSession] of [next-auth/react]: it resolves to the session or to
    [null], and does not reject. *)
Variable getSession : Context -> World -> option Session.t * World.

(** [session.user?.roles?.map(role => role.name) || []] *)
Definition userRoles (session : Session.t) : list string :=
  match Session.user session with
  | Some user =>
      match User.roles user with
      | Some roles => map Role.name roles
      | None => []
      end
  | None => []
  end.

(** [requiredRoles.some(role => userRoles.includes(role))] *)
Definition hasRequiredRole (session : Session.t)
  (requiredRoles : list string) : bool :=
  let userRoles := userRoles session in
  existsb (fun role => JS.includes userRoles role) requiredRoles.

Definition withAuth (gssp : GetServerSideProps)
  (requiredRoles : option (list string)) : GetServerSideProps :=
  fun context world =>
    let (session, world) := getSession context world in
    match session with
    | None => (inr (redirect "/api/auth/signin" false), world)
    | Some session =>
        (* Check for required roles *)
        match requiredRoles with
        | Some (r :: rs) => (* requiredRoles && requiredRoles.length > 0 *)
            let requiredRoles := r :: rs in
            if negb (hasRequiredRole session requiredRoles)
            then (inr (redirect "/unauthorized" false), world)
            else gssp context world
        | _ => gssp context world
        end
    end.

End WithAuth.

Arguments props {Props} p.
Arguments redirect {Props} destination permanent.
Arguments notFound {Props}.
Arguments withAuth {World Context Props Exn} getSession gssp requiredRoles.

End Guard.

(** ** [components/Layout.tsx]: the role predicates *)
Module Layout.

(** [session?.user?.roles?.some(role => role.name === roleName)], the
    expression behind [isAdmin] and [isStaff]; the optional chain yields
    [undefined] as soon as a link is missing. *)
Definition hasRole (session : option Session.t) (roleName : string)
  : option bool :=
  match session with
  | None => JS.undefined
  | Some session =>
      match Session.user session with
      | None => JS.undefined
      | Some user =>
          match User.roles user with
          | None => JS.undefined
          | Some roles =>
              Some (existsb (fun role => String.eqb (Role.name role) roleName)
                      roles)
          end
      end
  end.

Definition isAdmin (session : option Session.t) : option bool :=
  hasRole session "admin".

Definition isStaff (session : option Session.t) : option bool :=
  hasRole session "staff".

(** [!!v] for [v : boolean | undefined], as in [{isAdmin && ...}]. *)
Definition truthy (v : option bool) : bool :=
  match v with
  | Some b => b
  | None => false
  end.

End Layout.

(** ** The vocabulary of the specification *)
Module Spec.

(** The role lookup of section 4.1, written as the table the specification
    asks for; the code has three conditionals in its place. *)
Definition roleMapping : list (string * Role.t) :=
  [ ("admin", Role.mk "admin" "admin");
    ("staff", Role.mk "staff" "staff");
    ("appid_manage_roles", Role.mk "role_manager" "role_manager") ].

(** The dot-separated parts of a token, its payload segment as the code
    picks it, and the text that segment decodes to. *)
Definition parts (token : JS.ustring) : list JS.ustring :=
  JS.split JS.dot token.

Definition payload (token : JS.ustring) : option JS.ustring :=
  nth_error (parts token) 1.

Definition decoded (segment : JS.ustring) : JS.ustring :=
  JS.Buffer_from_base64_toString segment.

(** The value the payload segment of a token decodes and parses to. *)
Definition payload_value (token : JS.ustring) : option JS.json :=
  match payload token with
  | Some segment => JS.JSON_parse (decoded segment)
  | None => None
  end.

(** The [scope] claim of a token: [None] when the token has no payload
    segment, when the segment does not decode to JSON, and when the parsed
    value holds no [scope]. *)
Definition scope_claim (token : JS.ustring) : option JS.json :=
  match payload_value token with
  | Some v =>
      match JS.get_prop v "scope" with
      | inr claim => claim
      | inl _ => None
      end
  | None => None
  end.

(** The scope tokens of a space-delimited scope string. *)
Definition scope_tokens (scope : JS.ustring) : list JS.ustring :=
  JS.split JS.space scope.

(** The roles list of a session, when the session, its user and the list
    are all there. *)
Definition session_roles (session : option Session.t)
  : option (list Role.t) :=
  match session with
  | Some s =>
      match Session.user s with
      | Some u => User.roles u
      | None => None
      end
  | None => None
  end.

(** [SessionView] of section 3: the user and the access token of a
    session. *)
Record SessionView : Type := mkSessionView {
  view_user : User.t;
  view_accessToken : option JS.ustring }.

(** The view a session presents, when it has a user. *)
Definition view_of (session : Session.t) : option SessionView :=
  match Session.user session with
  | Some u => Some (mkSessionView u (Session.accessToken session))
  | None => None
  end.

End Spec.

(** ** Sample data *)
Module Sample.

Definition admin : Role.t := Role.mk "admin" "admin".
Definition staff : Role.t := Role.mk "staff" "staff".
Definition role_manager : Role.t := Role.mk "role_manager" "role_manager".

(** Payload [{ scope: 'admin staff' }], between a header and a signature. *)
Definition token_admin_staff : JS.ustring :=
  JS.units "h.eyJzY29wZSI6ImFkbWluIHN0YWZmIn0.s".

(** Payload [{ scope: 'staff openid admin staff email' }]. *)
Definition token_shuffled : JS.ustring :=
  JS.units "h.eyJzY29wZSI6InN0YWZmIG9wZW5pZCBhZG1pbiBzdGFmZiBlbWFpbCJ9.s".

(** Payload [{ scope: 'admin' }] with no third part. *)
Definition token_two_parts : JS.ustring :=
  JS.units "x.eyJzY29wZSI6ImFkbWluIn0".

(** The same payload with a [*] in the middle of the segment. *)
Definition token_star : JS.ustring :=
  JS.units "x.eyJzY29wZSI6*ImFkbWluIn0.sig".

(** Payload [{ sub: 'u1', iat: 1700000000 }]: no [scope]. *)
Definition token_no_scope : JS.ustring :=
  JS.units "h.eyJzdWIiOiJ1MSIsImlhdCI6MTcwMDAwMDAwMH0.s".

(** A payload that stops in the middle of an object. *)
Definition token_truncated : JS.ustring :=
  JS.units "h.eyJzY29wZSI6.s".

Definition profile_AB : Profile.t :=
  {| Profile.sub := Some "u1";
     Profile.name := None;
     Profile.email := None;
     Profile.email_verified := None;
     Profile.given_name := Some "A";
     Profile.family_name := Some "B";
     Profile.roles := None;
     Profile.identities := None |}.

Definition profile_no_sub : Profile.t :=
  {| Profile.sub := None;
     Profile.name := Some "Ann";
     Profile.email := Some "ann@example.org";
     Profile.email_verified := Some true;
     Profile.given_name := None;
     Profile.family_name := None;
     Profile.roles := None;
     Profile.identities := None |}.

Definition tokens : TokenInfo.t :=
  {| TokenInfo.access_token := Some token_admin_staff;
     TokenInfo.id_token := None |}.

Definition account : Account.t :=
  {| Account.provider := "ibm-appid";
     Account.access_token := Some token_admin_staff;
     Account.id_token := None |}.

Definition user_staff : User.t :=
  {| User.id := Some "u1";
     User.name := Some "A B";
     User.email := Some "ab@example.org";
     User.image := None;
     User.roles := Some [staff];
     User.email_verified := Some true;
     User.identities := Some [] |}.

Definition jwt_staff : JWT.t :=
  {| JWT.user := Some user_staff;
     JWT.accessToken := Some token_admin_staff;
     JWT.claims := [("sub", JS.JStr (JS.units "u1"))] |}.

(** A token record the [jwt] callback never filled in. *)
Definition jwt_bare : JWT.t :=
  {| JWT.user := None;
     JWT.accessToken := None;
     JWT.claims := [("sub", JS.JStr (JS.units "u1"))] |}.

(** The session NextAuth hands to the [session] callback. *)
Definition session_default : Session.t :=
  {| Session.user := Some (User.mk None (Some "A B") (Some "ab@example.org")
                             None None None None);
     Session.expires := "2026-01-01T00:00:00.000Z";
     Session.accessToken := None |}.

Definition session_staff : Session.t :=
  {| Session.user := Some user_staff;
     Session.expires := "2026-01-01T00:00:00.000Z";
     Session.accessToken := Some token_admin_staff |}.

(** Payload [{ sub: 'u1', scope: 'admin staff' }]. *)
Definition token_with_sub : JS.ustring :=
  JS.units "h.eyJzdWIiOiJ1MSIsInNjb3BlIjoiYWRtaW4gc3RhZmYifQ.s".

(** The base64url text of a list of bytes, for writing tokens down. *)
Definition base64url_digit (n : N) : N :=
  if (n <? 26)%N then (n + 65)%N
  else if (n <? 52)%N then (n + 71)%N
  else if (n <? 62)%N then (n - 4)%N
  else if (n =? 62)%N then 45%N
  else 95%N.

Fixpoint base64url (bytes : list N) : JS.ustring :=
  match bytes with
  | a :: b :: c :: rest =>
      base64url_digit (a / 4)
      :: base64url_digit ((a mod 4) * 16 + b / 16)
      :: base64url_digit ((b mod 16) * 4 + c / 64)
      :: base64url_digit (c mod 64)
      :: base64url rest
  | [a; b] =>
      [base64url_digit (a / 4);
       base64url_digit ((a mod 4) * 16 + b / 16);
       base64url_digit ((b mod 16) * 4)]
  | [a] => [base64url_digit (a / 4); base64url_digit ((a mod 4) * 16)]
  | [] => []
  end%N.

(** Payload [{ scope: 'admin staff', n: [[...]] }], the arrays nested [n]
    deep, and the token that carries it with [n = 5000]. *)
Definition payload_deep (n : nat) : JS.ustring :=
  (JS.units "{" ++ [JS.dquote] ++ JS.units "scope" ++ [JS.dquote]
   ++ JS.units ":" ++ [JS.dquote] ++ JS.units "admin staff" ++ [JS.dquote]
   ++ JS.units "," ++ [JS.dquote] ++ JS.units "n" ++ [JS.dquote]
   ++ JS.units ":" ++ repeat 91%N n ++ repeat 93%N n ++ JS.units "}")%list.

Definition token_deep : JS.ustring :=
  (JS.units "h." ++ base64url (payload_deep 5000) ++ JS.units ".s")%list.

(** A runtime in which [JSON.stringify] fails on values nested more than
    four thousand deep. *)
Definition overflows (v : JS.json) : bool := Nat.ltb 4000 (JS.depth v).

(** A request world that records which handlers ran; the context is the
    session cookie, already resolved. *)
Definition World : Type := list string.
Definition Context : Type := option Session.t.

Definition getSession (context : Context) (world : World)
  : option Session.t * World :=
  (context, (world ++ ["getSession"])%list).

Definition loader : Guard.GetServerSideProps World Context string unit :=
  fun _ world => (inr (Guard.props "page"), (world ++ ["loader"])%list).

End Sample.

(** ** Derived notions used by the further properties *)
Module Flow.

(** [s] has no occurrence of the code unit [c]. *)
Fixpoint no_char (c : N) (s : JS.ustring) : bool :=
  match s with
  | [] => true
  | a :: rest => negb (a =? c)%N && no_char c rest
  end.

(** The roles the table [Spec.roleMapping] gives for an array of scopes, in
    the order of the table. *)
Definition roles_of_scopes (scopeArray : list JS.ustring) : list Role.t :=
  flat_map
    (fun entry : string * Role.t =>
       if JS.includes_literal scopeArray (fst entry) then [snd entry] else [])
    Spec.roleMapping.

(** The roles a user id and an access token stand for: those of the
    space-separated scopes of a string [scope] claim, when there is a user
    id and the runtime can print the payload. *)
Definition derived_roles (overflows : JS.json -> bool)
  (userId : option string) (accessToken : option JS.ustring)
  : list Role.t :=
  if JS.truthy_string userId then
    match accessToken with
    | Some token =>
        match Spec.payload_value token with
        | Some v =>
            if overflows v then []
            else
              match JS.get_prop v "scope" with
              | inr (Some (JS.JStr s)) => roles_of_scopes (Spec.scope_tokens s)
              | _ => []
              end
        | None => []
        end
    | None => []
    end
  else [].

(** The role test [withAuth] applies to a resolved session: none for a
    missing or empty [requiredRoles]. *)
Definition role_check (requiredRoles : option (list string))
  (session : Session.t) : bool :=
  match requiredRoles with
  | Some (r :: rs) => Guard.hasRequiredRole session (r :: rs)
  | _ => true
  end.

(** The whole outcome, console lines included, of a call with a user id and
    a token: it is read off the payload segment. *)
Definition outcome_of_payload (overflows : JS.json -> bool)
  (payload : option JS.ustring) : Console.M (list Role.t) :=
  let decoded v :=
    Console.Log [Console.Text "Decoded access token:"; Console.Json v] in
  match payload with
  | None | Some [] =>
      ([Console.Error [Console.Text "Invalid access token format"]], inr [])
  | Some segment =>
      match JS.JSON_parse (Spec.decoded segment) with
      | None =>
          ([Console.Error [Console.Text "Error decoding token payload:";
                           Console.Caught JS.SyntaxError]], inr [])
      | Some v =>
          if overflows v then
            ([Console.Error [Console.Text "Error decoding token payload:";
                             Console.Caught JS.RangeError]], inr [])
          else
          match JS.get_prop v "scope" with
          | inl e =>
              ([decoded v;
                Console.Error [Console.Text "Error decoding token payload:";
                               Console.Caught e]], inr [])
          | inr scopes =>
              if JS.truthy scopes then
                let roles :=
                  match scopes with
                  | Some (JS.JStr s) => roles_of_scopes (Spec.scope_tokens s)
                  | _ => []
                  end in
                ([decoded v;
                  Console.Log [Console.Text "Extracted roles from scopes:";
                               Console.Roles roles]], inr roles)
              else
                ([decoded v;
                  Console.Log [Console.Text "No scopes found in token"]],
                 inr [])
          end
      end
  end.

End Flow.

(** ** The pages that test roles

    Of a page component the model keeps which of its [return]s is taken and
    the values it interpolates, and of its [useEffect] the route it pushes;
    the static markup is left out. *)
Module Pages.

(** [status] of [useSession()] *)
Inductive Status : Type := loading | authenticated | unauthenticated.

(** [StaffPage], which follows the NextAuth configuration in
    [[...nextauth].ts] *)
Module StaffPage.

Inductive View : Type :=
| Spinner
| Null                                  (* [return null] *)
| StaffDashboard (name email : option string).

(** The body of [useEffect]: the route given to [router.push], if any. *)
Definition effect (session : option Session.t) (status : Status)
  : option string :=
  match status with
  | loading => None
  | _ =>
      let isStaff := Layout.hasRole session "staff" in
      if negb (match session with Some _ => true | None => false end)
         || negb (Layout.truthy isStaff)
      then Some "/unauthorized"
      else None
  end.

(** The render: [session.user.name] and [session.user.email] dereference
    the session and its user. *)
Definition render (session : option Session.t) (status : Status)
  : JS.error + View :=
  match status with
  | loading => inr Spinner
  | _ =>
      if negb (Layout.truthy (Layout.hasRole session "staff"))
      then inr Null (* Router will redirect *)
      else
        match session with
        | Some s =>
            match Session.user s with
            | Some user =>
                inr (StaffDashboard (User.name user) (User.email user))
            | None => inl JS.TypeError
            end
        | None => inl JS.TypeError
        end
  end.

End StaffPage.

(** [AdminDashboard], the admin dashboard page *)
Module AdminDashboard.

Inductive View : Type :=
| Spinner
| Null
| Dashboard.

Definition effect (session : option Session.t) (status : Status)
  : option string :=
  match status with
  | loading => None
  | _ =>
      match session with
      | None => Some "/unauthorized"
      | Some s =>
          (* [session.user?.roles?.some(role => role.name === "admin")] *)
          let isAdmin := Layout.hasRole (Some s) "admin" in
          if negb (Layout.truthy isAdmin) then Some "/unauthorized"
          else None
      end
  end.

Definition render (session : option Session.t) (status : Status) : View :=
  match status with
  | loading => Spinner
  | _ =>
      match session with
      | None => Null
      | Some _ => Dashboard
      end
  end.

End AdminDashboard.

(** [DashboardPage] ([pages/dashboard.tsx]) *)
Module DashboardPage.

(** What the page shows of the session: the name it greets, whether the
    reports link, the admin quick access and the staff tools are there, and
    the badges of the roles card, [None] standing for the text shown in
    their place. *)
Record Content : Type := mkContent {
  welcome : option string;
  reportsLink : bool;
  roleBadges : option (list (string * string));
  adminQuickAccess : bool;
  staffTools : bool }.

Inductive View : Type :=
| Spinner
| Null
| Dashboard (content : Content).

Definition effect (session : option Session.t) (status : Status)
  : option string :=
  match status with
  | loading => None
  | _ =>
      match session with
      | None => Some "/unauthorized"
      | Some _ => None
      end
  end.

(** [session.user.roles?.some(role => role.name === roleName)] *)
Definition some_role (user : User.t) (roleName : string) : option bool :=
  match User.roles user with
  | None => JS.undefined
  | Some roles =>
      Some (existsb (fun role => String.eqb (Role.name role) roleName) roles)
  end.

Definition render (session : option Session.t) (status : Status)
  : JS.error + View :=
  match status with
  | loading => inr Spinner
  | _ =>
      match session with
      | None => inr Null
      | Some s =>
          match Session.user s with
          | None => inl JS.TypeError
          | Some user =>
              let isAdmin := some_role user "admin" in
              let isStaff := some_role user "staff" in
              inr (Dashboard
                     {| welcome := User.name user;
                        reportsLink :=
                          Layout.truthy isAdmin || Layout.truthy isStaff;
                        roleBadges :=
                          (* [roles?.map(badge) || fallback]: an array,
                             empty or not, is truthy *)
                          match User.roles user with
                          | Some roles =>
                              Some (map (fun role =>
                                           (Role.id role, Role.name role))
                                      roles)
                          | None => None
                          end;
                        adminQuickAccess := Layout.truthy isAdmin;
                        staffTools := Layout.truthy isStaff |})
          end
      end
  end.

End DashboardPage.

(** [ProfilePage] *)
Module ProfilePage.

(** What the page shows of the session's user: name, email, whether the
    "Verified" badge is there, id, the badges of the roles card ([None]
    standing for the text shown in their place), and the rows of the
    identities table (provider and id). *)
Record Content : Type := mkContent {
  name : option string;
  email : option string;
  verified : bool;
  id : option string;
  roleBadges : option (list (string * string));
  identities : list (string * string) }.

Inductive View : Type :=
| Spinner
| Null
| Profile (content : Content).

Definition effect (session : option Session.t) (status : Status)
  : option string :=
  match status with
  | loading => None
  | _ =>
      match session with
      | None => Some "/unauthorized"
      | Some _ => None
      end
  end.

Definition render (session : option Session.t) (status : Status)
  : JS.error + View :=
  match status with
  | loading => inr Spinner
  | _ =>
      match session with
      | None => inr Null
      | Some s =>
          match Session.user s with
          | None => inl JS.TypeError
          | Some user =>
              inr (Profile
                     {| name := User.name user;
                        email := User.email user;
                        verified :=
                          match User.email_verified user with
                          | Some b => b
                          | None => false
                          end;
                        id := User.id user;
                        roleBadges :=
                          (* [roles?.length ? badges : text] *)
                          match User.roles user with
                          | Some (r :: rs) =>
                              Some (map (fun role =>
                                           (Role.id role, Role.name role))
                                      (r :: rs))
                          | _ => None
                          end;
                        identities :=
                          match User.identities user with
                          | Some l =>
                              map (fun i =>
                                     (Identity.provider i, Identity.id i)) l
                          | None => []
                          end |})
          end
      end
  end.

End ProfilePage.

End Pages.

(** ** The navigation bar of [components/Layout.tsx] *)
Module Navigation.

(** The anchors of the bar: the brand, links with their [active] mark, and
    drop-down menus with their label and their items (address and text). *)
Inductive Entry : Type :=
| Brand
| Link (href label : string) (active : bool)
| Dropdown (label : option string) (items : list (string * string)).

(** [a || b] on [string | undefined] operands. *)
Definition or_else (a b : option string) : option string :=
  if JS.truthy_string a then a else b.

Definition adminMenu : Entry :=
  Dropdown (Some "Admin")
    [ ("/admin", "Dashboard"); ("/admin/users", "Users");
      ("/admin/roles", "Roles"); ("/admin/audit", "Audit Log") ].

Definition userMenu (label : option string) : Entry :=
  Dropdown label
    [ ("/profile", "Profile"); ("/settings", "Settings");
      ("/api/auth/signout", "Logout") ].

Definition link (pathname href label : string) : Entry :=
  Link href label (String.eqb pathname href).

(** The bar for a session and the current [router.pathname];
    [session.user.name] dereferences the user. *)
Definition navbar (session : option Session.t) (pathname : string)
  : JS.error + list Entry :=
  let isAdmin := Layout.isAdmin session in
  let isStaff := Layout.isStaff session in
  match session with
  | None => inr [Brand]
  | Some s =>
      match Session.user s with
      | None => inl JS.TypeError
      | Some user =>
          inr ([Brand; link pathname "/dashboard" "Dashboard"]
               ++ (if Layout.truthy isAdmin then [adminMenu] else [])
               ++ (if Layout.truthy isStaff
                   then [link pathname "/staff" "Staff"] else [])
               ++ [ link pathname "/reports" "Reports";
                    link pathname "/activity-log" "Activity";
                    link pathname "/help" "Help";
                    userMenu (or_else (User.name user) (User.email user)) ])%list
      end
  end.

(** The addresses an entry leads to. *)
Definition hrefs (e : Entry) : list string :=
  match e with
  | Brand => ["/"]
  | Link href _ _ => [href]
  | Dropdown _ items => map fst items
  end.

End Navigation.

(** ** [getServerSideProps] of the protected page and of the user-info
    page *)
Module ServerProps.

Section Handlers.

Variables World Context Exn Data : Type.

(** [getSession(context)], as for [withAuth]. *)
Variable getSession : Context -> World -> option Session.t * World.

(** [Protected]: [props: { user: session.user }] *)
Definition Protected_getServerSideProps
  : Guard.GetServerSideProps World Context (option User.t) Exn :=
  fun context world =>
    let (session, world) := getSession context world in
    match session with
    | None => (inr (Guard.redirect "/api/auth/signin" false), world)
    | Some session => (inr (Guard.props (Session.user session)), world)
    end.

(** [process.env.APP_ID_ISSUER] *)
Variable APP_ID_ISSUER : option string.

(** [import("next-auth/react").then(mod => mod.getSession(context))]: here a
    rejection is allowed for, since the call stands inside [try]. *)
Variable importGetSession :
  Context -> World -> (Exn + option Session.t) * World.

(** [axios.get(url, { headers: { Authorization } })], resolving to
    [response.data] or rejecting. *)
Variable axios_get : string -> JS.ustring -> World -> (Exn + Data) * World.

(** [console.error(message, error)] *)
Variable console_error : string -> Exn -> World -> World.

(** [UserInfoProps] *)
Record UserInfoProps : Type := mkUserInfoProps {
  userInfo : option Data;
  error : option string }.

(** The [catch] block of [UserInfo]'s [getServerSideProps]. *)
Definition UserInfo_catch (e : Exn) (world : World)
  : (Exn + Guard.Result UserInfoProps) * World :=
  let world := console_error "Error fetching userinfo:" e world in
  (inr (Guard.props
          {| userInfo := None;
             error := Some "Failed to fetch user information" |}),
   world).

Definition UserInfo_getServerSideProps
  : Guard.GetServerSideProps World Context UserInfoProps Exn :=
  fun context world =>
    let userInfoEndpoint := JS.template APP_ID_ISSUER ++ "/userinfo" in
    match importGetSession context world with
    | (inl e, world) => UserInfo_catch e world
    | (inr session, world) =>
        (* [session?.accessToken] *)
        let accessToken :=
          match session with
          | Some s => Session.accessToken s
          | None => JS.undefined
          end in
        if negb (JS.truthy_units accessToken) then
          (inr (Guard.redirect "/api/auth/signin" false), world)
        else
          match axios_get userInfoEndpoint
                  (JS.units "Bearer " ++ JS.template_units accessToken)%list
                  world with
          | (inl e, world) => UserInfo_catch e world
          | (inr data, world) =>
              (inr (Guard.props {| userInfo := Some data; error := None |}),
               world)
          end
    end.

End Handlers.

Arguments Protected_getServerSideProps {World Context Exn} getSession.
Arguments UserInfo_getServerSideProps {World Context Exn Data}
  APP_ID_ISSUER importGetSession axios_get console_error.
Arguments mkUserInfoProps {Data} userInfo error.
Arguments userInfo {Data} u.
Arguments error {Data} u.

End ServerProps.

(** ** Sample handlers *)
Module SampleHandlers.

(** A [getSession] that reads the session off the context and leaves the
    world alone. *)
Definition readSession (context : Sample.Context) (world : Sample.World)
  : option Session.t * Sample.World :=
  (context, world).

Definition importGetSession (context : Sample.Context)
  (world : Sample.World) : (unit + option Session.t) * Sample.World :=
  (inr context, (world ++ ["getSession"])%list).

(** A user-info endpoint that answers with the header it was sent, and one
    that fails; both record the request. *)
Definition axios_get (url : string) (authorization : JS.ustring)
  (world : Sample.World) : (unit + JS.ustring) * Sample.World :=
  (inr authorization, (world ++ [("GET " ++ url)%string])%list).

Definition axios_fail (url : string) (authorization : JS.ustring)
  (world : Sample.World) : (unit + JS.ustring) * Sample.World :=
  (inl tt, (world ++ [("GET " ++ url)%string])%list).

Definition console_error (message : string) (e : unit)
  (world : Sample.World) : Sample.World :=
  (world ++ [message])%list.

Definition session_admin : Session.t :=
  {| Session.user :=
       Some (User.mk (Some "u2") (Some "Root") None None
               (Some [Sample.admin]) None None);
     Session.expires := "2026-01-01T00:00:00.000Z";
     Session.accessToken := Some Sample.token_two_parts |}.

End SampleHandlers.

(** * Properties *)

(** ** The runtime on small inputs *)
Module RuntimeExamples.
Import JS.
Local Open Scope N_scope.

Example split_dots :
  split dot (units "a.b..c") = [units "a"; units "b"; []; units "c"].
Proof. reflexivity. Qed.

Example split_empty : split dot [] = [[]].
Proof. reflexivity. Qed.

Example decode_hello :
  Buffer_from_base64_toString (units "aGVsbG8") = units "hello".
Proof. reflexivity. Qed.

(** Padding ends the decoding; a character outside the alphabets is passed
    over; [+/] and [-_] stand for the same sextets. *)
Example decode_lenient :
  Buffer_from_base64_toString (units "aGV*sbG8=ignored") = units "hello"
  /\ Buffer_from_base64_toString (units "-_8")
     = Buffer_from_base64_toString (units "+/8").
Proof. split; reflexivity. Qed.

(** Of a code unit beyond U+00FF the decoder sees the low byte: U+0161 is
    read as [a], U+2028 as [(], which it passes over, and U+013D as [=],
    where it stops. *)
Example decode_low_bytes :
  Buffer_from_base64 (353 :: units "GVsbG8")
  = Buffer_from_base64 (units "aGVsbG8")
  /\ Buffer_from_base64 (units "aGVs" ++ 8232 :: units "bG8")%list
     = Buffer_from_base64 (units "aGVsbG8")
  /\ Buffer_from_base64 (units "aGVsbG8" ++ 317 :: units "aGVsbG8")%list
     = Buffer_from_base64 (units "aGVsbG8").
Proof. repeat split. Qed.

(** [toString()] reads UTF-8: three bytes for U+2713, four bytes for the
    surrogate pair of U+1F600. *)
Example toString_utf8 :
  Buffer_toString [226; 156; 147] = [10003]
  /\ Buffer_toString [240; 159; 152; 128] = [55357; 56832].
Proof. split; reflexivity. Qed.

(** Bytes that are not UTF-8 come out as U+FFFD: a byte that starts nothing,
    a sequence cut short (once for the sequence, the next byte read anew), an
    overlong form and an encoded surrogate (once for each byte). *)
Example toString_replaces :
  Buffer_toString [255; 65] = [replacement; 65]
  /\ Buffer_toString [226; 156] = [replacement]
  /\ Buffer_toString [226; 65] = [replacement; 65]
  /\ Buffer_toString [192; 175] = [replacement; replacement]
  /\ Buffer_toString [237; 160; 128]
     = [replacement; replacement; replacement].
Proof. repeat split. Qed.

(** The byte-order mark is kept, so that a payload starting with one is not
    JSON. *)
Example toString_keeps_mark :
  Buffer_toString [239; 187; 191; 49] = [65279; 49]
  /\ JSON_parse (Buffer_toString [239; 187; 191; 49]) = None.
Proof. split; reflexivity. Qed.

Example parse_scope_payload :
  JSON_parse
    (Buffer_from_base64_toString (units "eyJzY29wZSI6ImFkbWluIHN0YWZmIn0"))
  = Some (JObj [(units "scope", JStr (units "admin staff"))]).
Proof. reflexivity. Qed.

Example parse_nested :
  JSON_parse (units " [1, [ ], -0.50e+2, true, null] ")
  = Some (JArr [JNum (mkNumber false 1 0); JArr [];
                JNum (mkNumber true 50 0); JBool true; JNull]).
Proof. reflexivity. Qed.

Example parse_rejects :
  JSON_parse (units "01") = None /\ JSON_parse (units "[1,]") = None
  /\ JSON_parse (units "tru") = None /\ JSON_parse (units "1 2") = None
  /\ JSON_parse [] = None /\ JSON_parse (units "{a:1}") = None.
Proof. repeat split. Qed.

(** An escape [\uXXXX] stands for one code unit. *)
Example parse_escape :
  JSON_parse
    (dquote :: backslash :: units "u0161" ++ backslash :: units "n"
     ++ [dquote])%list
  = Some (JStr [353; 10]).
Proof. reflexivity. Qed.

Example depth_of_values :
  depth (JStr (units "x")) = 0%nat
  /\ depth (JObj [(units "a", JArr [JArr []; JNull]); (units "b", JNull)])
     = 3%nat.
Proof. split; reflexivity. Qed.

(** [null.scope] throws; a string, a number or an array has no [scope]. *)
Example scope_of_non_objects :
  get_prop JNull "scope" = inl TypeError
  /\ get_prop (JStr (units "scope")) "scope" = inr undefined
  /\ get_prop (JArr []) "scope" = inr undefined.
Proof. repeat split. Qed.

(** Of two [scope] members the later one is read. *)
Example scope_last_wins :
  get_prop (JObj [(units "scope", JStr (units "admin"));
                  (units "scope", JStr (units "staff"))]) "scope"
  = inr (Some (JStr (units "staff"))).
Proof. reflexivity. Qed.

(** [0], [-0.0] and [1e-400] are falsy numbers; [5e-324] is not. *)
Example falsy_numbers :
  truthy (Some (JNum (mkNumber false 0 0))) = false
  /\ truthy (Some (JNum (mkNumber true 0 (-1)))) = false
  /\ truthy (Some (JNum (mkNumber false 1 (-400)))) = false
  /\ truthy (Some (JNum (mkNumber false 5 (-324)))) = true.
Proof. repeat split; vm_compute; reflexivity. Qed.

End RuntimeExamples.

(** ** The JSON parser: fuel *)
Module JsonParser.
Import JS.

Lemma skip_ws_length (s : ustring) :
  (length (skip_ws s) <= length s)%nat.
Proof.
  induction s as [|c s IH]; simpl; [lia|].
  destruct (is_ws c); simpl; lia.
Qed.

Lemma skip_ws_cons (s r : ustring) (c : N) :
  skip_ws s = c :: r -> (length r < length s)%nat.
Proof.
  intros H. pose proof (skip_ws_length s) as L. rewrite H in L.
  simpl in L. lia.
Qed.

Lemma digits_length (s : ustring) (acc : N) (count : nat) :
  (length (snd (digits s acc count)) <= length s)%nat.
Proof.
  revert acc count. induction s as [|c s IH]; intros acc count; simpl;
    [lia|].
  destruct (digit c); simpl; [|lia].
  specialize (IH (acc * 10 + n)%N (S count)). lia.
Qed.

Lemma parse_exponent_length (s r : ustring) (e : Z) :
  parse_exponent s = Some (e, r) ->
  (length r <= length s)%nat.
Proof.
  unfold parse_exponent. destruct s as [|c s]; [intros H; now inversion H|].
  destruct ((c =? chr "e")%N || (c =? chr "E")%N);
    [|intros H; now inversion H].
  assert (forall t,
             (length t <= length s)%nat ->
             forall minus,
             (let '(v, n, rest2) := digits t 0%N 0%nat in
              match n with
              | O => None
              | S _ => Some (if minus : bool then (- Z.of_N v)%Z
                             else Z.of_N v, rest2)
              end) = Some (e, r) ->
             (length r <= length (c :: s))%nat) as K.
  { intros t Ht minus. pose proof (digits_length t 0%N 0%nat) as L.
    destruct (digits t 0%N 0%nat) as [[v n] rest2]. simpl in L.
    destruct n; [discriminate|]. intros H. inversion H; subst. simpl. lia. }
  destruct s as [|sg s'];
    [intros H; apply (K [] (Nat.le_refl _) false H)|].
  destruct ((sg =? chr "-")%N);
    [intros H; apply (K s' ltac:(simpl; lia) true H)|].
  destruct ((sg =? chr "+")%N); intros H;
    [apply (K s' ltac:(simpl; lia) false H)
    |apply (K (sg :: s') (Nat.le_refl _) false H)].
Qed.

Lemma parse_fraction_length (ip : N) (s r : ustring) (m : N) (fd : nat) :
  parse_fraction ip s = Some (m, fd, r) ->
  (length r <= length s)%nat.
Proof.
  unfold parse_fraction. destruct s as [|c s]; [intros H; now inversion H|].
  destruct ((c =? chr ".")%N); [|intros H; now inversion H].
  pose proof (digits_length s ip 0%nat) as L.
  destruct (digits s ip 0%nat) as [[v n] rest1]. simpl in L.
  destruct n; [discriminate|]. intros H. inversion H; subst. simpl. lia.
Qed.

Lemma parse_number_length (s r : ustring) (n : number) :
  parse_number s = Some (n, r) -> (length r < length s)%nat.
Proof.
  unfold parse_number.
  assert (forall s1 minus,
             (length s1 <= length s)%nat ->
             match s1 with
             | [] => None
             | c :: r0 =>
                 match digit c with
                 | None => None
                 | Some d =>
                     let '(ip, s2) :=
                       if (d =? 0)%N then (0%N, r0)
                       else let '(v, _, r') := digits r0 d 1%nat in (v, r') in
                     match parse_fraction ip s2 with
                     | None => None
                     | Some (m, fd, s3) =>
                         match parse_exponent s3 with
                         | None => None
                         | Some (e, s4) =>
                             Some (mkNumber minus m (e - Z.of_nat fd)%Z, s4)
                         end
                     end
                 end
             end = Some (n, r) ->
             (length r < length s)%nat) as K.
  { intros s1 minus Hs1. destruct s1 as [|c r0]; [discriminate|].
    destruct (digit c) as [d|]; [|discriminate].
    assert (exists ip s2,
               (if (d =? 0)%N then (0%N, r0)
                else let '(v, _, r') := digits r0 d 1%nat in (v, r'))
               = (ip, s2)
               /\ (length s2 <= length r0)%nat) as (ip & s2 & E & L).
    { destruct (d =? 0)%N; [now exists 0%N, r0|].
      pose proof (digits_length r0 d 1%nat) as L.
      destruct (digits r0 d 1%nat) as [[v k] r']. simpl in L.
      now exists v, r'. }
    rewrite E.
    destruct (parse_fraction ip s2) as [[[m fd] s3]|] eqn:F; [|discriminate].
    apply parse_fraction_length in F.
    destruct (parse_exponent s3) as [[e s4]|] eqn:X; [|discriminate].
    apply parse_exponent_length in X.
    intros H. inversion H; subst. simpl in Hs1. lia. }
  destruct s as [|c s'];
    [intros H; apply (K [] false (Nat.le_refl _) H)|].
  destruct ((c =? chr "-")%N); intros H;
    [apply (K s' true ltac:(simpl; lia) H)
    |apply (K (c :: s') false (Nat.le_refl _) H)].
Qed.

Lemma prepend_length (p : N) (body rest : ustring)
  (x : option (ustring * ustring)) :
  prepend p x = Some (body, rest) ->
  exists body', x = Some (body', rest).
Proof.
  destruct x as [[b r]|]; simpl; [|discriminate].
  intros H. inversion H; subst. now exists b.
Qed.

Lemma parse_string_body_length (s body r : ustring) :
  parse_string_body s = Some (body, r) ->
  (length r < length s)%nat.
Proof.
  remember (length s) as n eqn:Hn.
  revert s body r Hn.
  induction n as [n IH] using lt_wf_ind. intros s body r Hn.
  destruct s as [|c rest]; [discriminate|]. simpl in Hn.
  cbn [parse_string_body].
  destruct ((c =? dquote)%N).
  { intros H. inversion H; subst. simpl. lia. }
  destruct ((c =? backslash)%N).
  { destruct rest as [|e rest1]; [discriminate|].
    destruct (simple_escape e).
    - intros H. apply prepend_length in H as [b' H].
      apply (IH (length rest1)) in H; simpl in *; try lia.
    - destruct ((e =? chr "u")%N); [|discriminate].
      destruct rest1 as [|h1 [|h2 [|h3 [|h4 rest2]]]]; try discriminate.
      destruct (hex4 h1 h2 h3 h4); [|discriminate].
      intros H. apply prepend_length in H as [b' H].
      apply (IH (length rest2)) in H; simpl in *; try lia. }
  destruct (c <? 32)%N; [discriminate|].
  intros H. apply prepend_length in H as [b' H].
  apply (IH (length rest)) in H; simpl in *; try lia.
Qed.

Lemma strip_prefix_length (p s r : ustring) :
  strip_prefix p s = Some r ->
  length s = (length p + length r)%nat.
Proof.
  revert s. induction p as [|a p IH]; intros s; simpl.
  - intros H. now inversion H.
  - destruct s as [|b s]; [discriminate|].
    destruct (a =? b)%N; [|discriminate].
    intros H. apply IH in H. simpl. lia.
Qed.

Lemma parse_literal_length (s r : ustring) (v : json) :
  parse_literal s = Some (v, r) -> (length r < length s)%nat.
Proof.
  unfold parse_literal.
  destruct (strip_prefix (units "true") s) eqn:T.
  { intros H. inversion H; subst. apply strip_prefix_length in T.
    simpl in T. lia. }
  destruct (strip_prefix (units "false") s) eqn:F.
  { intros H. inversion H; subst. apply strip_prefix_length in F.
    simpl in F. lia. }
  destruct (strip_prefix (units "null") s) eqn:U.
  { intros H. inversion H; subst. apply strip_prefix_length in U.
    simpl in U. lia. }
  destruct (parse_number s) as [[n r']|] eqn:P; [|discriminate].
  intros H. inversion H; subst. now apply parse_number_length in P.
Qed.

Lemma parse_value_S (fuel : nat) (s : ustring) :
  parse_value (S fuel) s
  = match skip_ws s with
    | [] => None
    | c :: r =>
        if (c =? chr "{")%N then
          match skip_ws r with
          | [] => None
          | c1 :: r1 =>
              if (c1 =? chr "}")%N then Some (JObj [], r1)
              else parse_members fuel r []
          end
        else if (c =? chr "[")%N then
          match skip_ws r with
          | [] => None
          | c1 :: r1 =>
              if (c1 =? chr "]")%N then Some (JArr [], r1)
              else parse_elements fuel r []
          end
        else if (c =? dquote)%N then
          match parse_string_body r with
          | Some (str, r1) => Some (JStr str, r1)
          | None => None
          end
        else parse_literal (c :: r)
    end.
Proof. reflexivity. Qed.

Lemma parse_elements_S (fuel : nat) (s : ustring) (acc : list json) :
  parse_elements (S fuel) s acc
  = match parse_value fuel s with
    | None => None
    | Some (v, r) =>
        match skip_ws r with
        | [] => None
        | c :: r1 =>
            if (c =? chr ",")%N then parse_elements fuel r1 (v :: acc)
            else if (c =? chr "]")%N then
              Some (JArr (rev (v :: acc)), r1)
            else None
        end
    end.
Proof. reflexivity. Qed.

Lemma parse_members_S (fuel : nat) (s : ustring)
  (acc : list (ustring * json)) :
  parse_members (S fuel) s acc
  = match skip_ws s with
    | [] => None
    | c :: r =>
        if (c =? dquote)%N then
          match parse_string_body r with
          | None => None
          | Some (key, r1) =>
              match skip_ws r1 with
              | [] => None
              | c1 :: r2 =>
                  if (c1 =? chr ":")%N then
                    match parse_value fuel r2 with
                    | None => None
                    | Some (v, r3) =>
                        match skip_ws r3 with
                        | [] => None
                        | c3 :: r4 =>
                            if (c3 =? chr ",")%N then
                              parse_members fuel r4 ((key, v) :: acc)
                            else if (c3 =? chr "}")%N then
                              Some (JObj (rev ((key, v) :: acc)), r4)
                            else None
                        end
                    end
                  else None
              end
          end
        else None
    end.
Proof. reflexivity. Qed.

(** A successful parse consumes input, and twice the number of characters
    consumed is fuel enough to repeat it. *)
Lemma fuel_for_consumed (fuel : nat) :
  (forall s v r,
      parse_value fuel s = Some (v, r) ->
      (length r < length s)%nat
      /\ forall fuel',
          (2 * (length s - length r) <= fuel')%nat ->
          parse_value fuel' s = Some (v, r))
  /\
  (forall s acc v r,
      parse_elements fuel s acc = Some (v, r) ->
      (length r < length s)%nat
      /\ forall fuel',
          (2 * (length s - length r) + 1 <= fuel')%nat ->
          parse_elements fuel' s acc = Some (v, r))
  /\
  (forall s acc v r,
      parse_members fuel s acc = Some (v, r) ->
      (length r < length s)%nat
      /\ forall fuel',
          (2 * (length s - length r) + 1 <= fuel')%nat ->
          parse_members fuel' s acc = Some (v, r)).
Proof.
  induction fuel as [|fuel (IHV & IHE & IHM)].
  { repeat split; discriminate. }
  split; [|split].
  - intros s v r. rewrite parse_value_S.
    pose proof (skip_ws_length s) as Ls.
    destruct (skip_ws s) as [|c r0] eqn:E; [discriminate|]. simpl in Ls.
    destruct ((c =? chr "{")%N) eqn:Bo.
    { destruct (skip_ws r0) as [|c1 r1] eqn:E1; [discriminate|].
      pose proof (skip_ws_cons _ _ _ E1) as L1.
      destruct ((c1 =? chr "}")%N) eqn:Bc.
      - intros H. inversion H; subst. split; [lia|].
        intros [|fuel'] Hf; [lia|].
        now rewrite parse_value_S, E, Bo, E1, Bc.
      - intros H. apply IHM in H as [L M]. split; [lia|].
        intros [|fuel'] Hf; [lia|].
        rewrite parse_value_S, E, Bo, E1, Bc. apply M. lia. }
    destruct ((c =? chr "[")%N) eqn:Ba.
    { destruct (skip_ws r0) as [|c1 r1] eqn:E1; [discriminate|].
      pose proof (skip_ws_cons _ _ _ E1) as L1.
      destruct ((c1 =? chr "]")%N) eqn:Bc.
      - intros H. inversion H; subst. split; [lia|].
        intros [|fuel'] Hf; [lia|].
        now rewrite parse_value_S, E, Bo, Ba, E1, Bc.
      - intros H. apply IHE in H as [L M]. split; [lia|].
        intros [|fuel'] Hf; [lia|].
        rewrite parse_value_S, E, Bo, Ba, E1, Bc. apply M. lia. }
    destruct ((c =? dquote)%N) eqn:Bq.
    { destruct (parse_string_body r0) as [[str r1]|] eqn:P; [|discriminate].
      pose proof (parse_string_body_length _ _ _ P) as L1.
      intros H. inversion H; subst. split; [lia|].
      intros [|fuel'] Hf; [lia|].
      now rewrite parse_value_S, E, Bo, Ba, Bq, P. }
    intros H. pose proof (parse_literal_length _ _ _ H) as L1.
    simpl in L1. split; [lia|].
    intros [|fuel'] Hf; [lia|].
    now rewrite parse_value_S, E, Bo, Ba, Bq.
  - intros s acc v r. rewrite parse_elements_S.
    destruct (parse_value fuel s) as [[v1 r1]|] eqn:E1; [|discriminate].
    apply IHV in E1 as [L1 M1].
    destruct (skip_ws r1) as [|c r2] eqn:E2; [discriminate|].
    pose proof (skip_ws_cons _ _ _ E2) as L2.
    destruct ((c =? chr ",")%N) eqn:Bc.
    + intros H. apply IHE in H as [L M]. split; [lia|].
      intros [|fuel'] Hf; [lia|].
      rewrite parse_elements_S, (M1 fuel') by lia. rewrite E2, Bc.
      apply M. lia.
    + destruct ((c =? chr "]")%N) eqn:Bd; [|discriminate].
      intros H. inversion H; subst. split; [lia|].
      intros [|fuel'] Hf; [lia|].
      rewrite parse_elements_S, (M1 fuel') by lia. now rewrite E2, Bc, Bd.
  - intros s acc v r. rewrite parse_members_S.
    pose proof (skip_ws_length s) as Ls.
    destruct (skip_ws s) as [|c r0] eqn:E; [discriminate|]. simpl in Ls.
    destruct ((c =? dquote)%N) eqn:Bq; [|discriminate].
    destruct (parse_string_body r0) as [[key r1]|] eqn:P; [|discriminate].
    pose proof (parse_string_body_length _ _ _ P) as Lk.
    destruct (skip_ws r1) as [|c1 r2] eqn:E1; [discriminate|].
    pose proof (skip_ws_cons _ _ _ E1) as L1.
    destruct ((c1 =? chr ":")%N) eqn:Bc; [|discriminate].
    destruct (parse_value fuel r2) as [[v1 r3]|] eqn:E2; [|discriminate].
    apply IHV in E2 as [L2 M2].
    destruct (skip_ws r3) as [|c3 r4] eqn:E3; [discriminate|].
    pose proof (skip_ws_cons _ _ _ E3) as L3.
    destruct ((c3 =? chr ",")%N) eqn:Bm.
    + intros H. apply IHM in H as [L M]. split; [lia|].
      intros [|fuel'] Hf; [lia|].
      rewrite parse_members_S, E, Bq, P, E1, Bc, (M2 fuel') by lia.
      rewrite E3, Bm. apply M. lia.
    + destruct ((c3 =? chr "}")%N) eqn:Be; [|discriminate].
      intros H. inversion H; subst. split; [lia|].
      intros [|fuel'] Hf; [lia|].
      rewrite parse_members_S, E, Bq, P, E1, Bc, (M2 fuel') by lia.
      now rewrite E3, Bm, Be.
Qed.

(** The fuel [JSON_parse] supplies is enough: no amount of fuel parses a
    text that it rejects, or parses it otherwise. *)
Theorem JSON_parse_fuel (text : ustring) (fuel : nat) (v : json)
  (rest : ustring) :
  parse_value fuel text = Some (v, rest) ->
  parse_value (2 * length text + 2) text = Some (v, rest).
Proof.
  intros H. apply (proj1 (fuel_for_consumed fuel)) in H as [L M].
  apply M. lia.
Qed.

End JsonParser.

(** ** Token processing: [fetchUserRoles] *)
Module TokenProcessor.
Import Console NextAuthConfig.

Lemma includes_In (arr : list string) (x : string) :
  JS.includes arr x = true <-> In x arr.
Proof.
  unfold JS.includes. rewrite existsb_exists. split.
  - intros [y [Hy Heq]]. apply String.eqb_eq in Heq. now subst.
  - intros H. exists x. split; [assumption | apply String.eqb_refl].
Qed.

Lemma includes_not_In (arr : list string) (x : string) :
  JS.includes arr x = false <-> ~ In x arr.
Proof.
  rewrite <- includes_In. destruct (JS.includes arr x); split; congruence.
Qed.

Lemma ustring_eqb_eq (a b : JS.ustring) :
  JS.ustring_eqb a b = true <-> a = b.
Proof.
  revert b. induction a as [|x a IH]; intros [|y b]; simpl;
    try (split; [discriminate | congruence]); [split; reflexivity|].
  rewrite andb_true_iff, N.eqb_eq, IH. split.
  - intros [-> ->]. reflexivity.
  - intros H. inversion H. auto.
Qed.

Lemma includes_literal_In (arr : list JS.ustring) (x : string) :
  JS.includes_literal arr x = true <-> In (JS.units x) arr.
Proof.
  unfold JS.includes_literal. rewrite existsb_exists. split.
  - intros [y [Hy Heq]]. apply ustring_eqb_eq in Heq. now subst.
  - intros H. exists (JS.units x). split; [assumption|].
    now apply ustring_eqb_eq.
Qed.

Lemma includes_literal_not_In (arr : list JS.ustring) (x : string) :
  JS.includes_literal arr x = false <-> ~ In (JS.units x) arr.
Proof.
  rewrite <- includes_literal_In.
  destruct (JS.includes_literal arr x); split; congruence.
Qed.

(** The empty segment decodes to the empty text, which is not JSON. *)
Lemma decoded_empty_not_json :
  JS.JSON_parse (Spec.decoded []) = None.
Proof. reflexivity. Qed.

Lemma truthy_string_false (s : option string) :
  JS.truthy_string s = false <-> s = None \/ s = Some EmptyString.
Proof.
  destruct s as [[|c r]|]; simpl; split; intros H; auto;
    try discriminate; destruct H; discriminate.
Qed.

Lemma truthy_units_false (s : option JS.ustring) :
  JS.truthy_units s = false <-> s = None \/ s = Some [].
Proof.
  destruct s as [[|c r]|]; simpl; split; intros H; auto;
    try discriminate; destruct H; discriminate.
Qed.

(** Unfolds a call of [fetchUserRoles] down to the tests it makes. *)
Ltac fetch_unfold :=
  unfold fetchUserRoles, try_catch, bind, JSON_parse, JSON_stringify,
    get_prop, console_log, console_error, ret, throw, result, output.

Lemma payload_value_Some (token : JS.ustring) (v : JS.json) :
  Spec.payload_value token = Some v ->
  exists c cs segment,
    token = c :: cs /\
    Spec.payload token = Some segment /\
    JS.JSON_parse (Spec.decoded segment) = Some v.
Proof.
  unfold Spec.payload_value. intros H.
  destruct token as [|c cs]; [discriminate|].
  destruct (Spec.payload (c :: cs)) as [segment|] eqn:Hp; [|discriminate].
  now exists c, cs, segment.
Qed.

(** What [Spec.scope_claim] says about the payload of a token. *)
Lemma scope_claim_Some (token : JS.ustring) (claim : JS.json) :
  Spec.scope_claim token = Some claim ->
  exists c cs segment v,
    token = c :: cs /\
    Spec.payload token = Some segment /\
    JS.JSON_parse (Spec.decoded segment) = Some v /\
    JS.get_prop v "scope" = inr (Some claim).
Proof.
  unfold Spec.scope_claim. intros H.
  destruct (Spec.payload_value token) as [v|] eqn:Hv; [|discriminate].
  destruct (payload_value_Some _ _ Hv) as (c & cs & segment & -> & Hp & Hj).
  destruct (JS.get_prop v "scope") as [e|claim'] eqn:Hg; [discriminate|].
  subst claim'. now exists c, cs, segment, v.
Qed.

Lemma roleMapping_In (scope : string) (r : Role.t) :
  In (scope, r) Spec.roleMapping <->
  (scope = "admin" /\ r = Sample.admin)
  \/ (scope = "staff" /\ r = Sample.staff)
  \/ (scope = "appid_manage_roles" /\ r = Sample.role_manager).
Proof.
  unfold Spec.roleMapping. simpl. split.
  - intros [H | [H | [H | []]]]; inversion H; subst; auto.
  - intros [[-> ->] | [[-> ->] | [-> ->]]]; auto.
Qed.

(** The three conditionals of the code compute the lookup in the table. *)
Lemma conditionals_follow_table (scopeArray : list JS.ustring)
  (r : Role.t) :
  In r ((if JS.includes_literal scopeArray "admin"
         then [Sample.admin] else [])
        ++ (if JS.includes_literal scopeArray "staff"
            then [Sample.staff] else [])
        ++ (if JS.includes_literal scopeArray "appid_manage_roles"
            then [Sample.role_manager] else []))%list
  <-> exists scope,
        In (JS.units scope) scopeArray /\ In (scope, r) Spec.roleMapping.
Proof.
  split.
  - intros H.
    destruct (JS.includes_literal scopeArray "admin") eqn:Ha,
             (JS.includes_literal scopeArray "staff") eqn:Hs,
             (JS.includes_literal scopeArray "appid_manage_roles") eqn:Hm;
      simpl in H;
      repeat match goal with
        | H : _ \/ _ |- _ => destruct H
        | H : False |- _ => destruct H
        end; subst r;
      first [ exists "admin"; split;
              [now apply includes_literal_In
              | apply roleMapping_In; auto; fail]
            | exists "staff"; split;
              [now apply includes_literal_In
              | apply roleMapping_In; auto; fail]
            | exists "appid_manage_roles"; split;
              [now apply includes_literal_In
              | apply roleMapping_In; auto] ].
  - intros [scope [Hin Hmap]]. apply roleMapping_In in Hmap.
    destruct Hmap as [[-> ->] | [[-> ->] | [-> ->]]];
      apply includes_literal_In in Hin; rewrite Hin;
      repeat (apply in_or_app; simpl; auto; right).
Qed.

Section Runtime.

(** The values [JSON.stringify] cannot print in the runtime at hand. *)
Variable overflows : JS.json -> bool.

(** With a user id and a token in hand, the outcome is decided by the payload
    segment alone. *)
Lemma fetchUserRoles_no_payload (u : ascii) (us : string) (c : N)
  (cs : JS.ustring) :
  JS.truthy_units (Spec.payload (c :: cs)) = false ->
  fetchUserRoles overflows (Some (String u us)) (Some (c :: cs))
  = ([Error [Text "Invalid access token format"]], inr []).
Proof.
  intros H. fetch_unfold. unfold Spec.payload, Spec.parts in H.
  cbn [JS.truthy_string JS.truthy_units negb orb]. rewrite H. reflexivity.
Qed.

Lemma fetchUserRoles_not_json (u : ascii) (us : string) (c : N)
  (cs segment : JS.ustring) :
  Spec.payload (c :: cs) = Some segment ->
  JS.JSON_parse (Spec.decoded segment) = None ->
  result (fetchUserRoles overflows (Some (String u us)) (Some (c :: cs)))
  = inr [].
Proof.
  intros Hp Hj. fetch_unfold. unfold Spec.payload, Spec.parts in Hp.
  unfold Spec.decoded in Hj.
  cbn [JS.truthy_string JS.truthy_units negb orb]. rewrite Hp.
  destruct (JS.truthy_units (Some segment)); cbn [negb]; [|reflexivity].
  rewrite Hj. reflexivity.
Qed.

(** A payload [JSON.stringify] cannot print: the [RangeError] is caught by
    the inner handler, before the [scope] claim is looked at. *)
Lemma fetchUserRoles_overflow (u : ascii) (us : string) (c : N)
  (cs segment : JS.ustring) (v : JS.json) :
  Spec.payload (c :: cs) = Some segment ->
  JS.JSON_parse (Spec.decoded segment) = Some v ->
  overflows v = true ->
  fetchUserRoles overflows (Some (String u us)) (Some (c :: cs))
  = ([Error [Text "Error decoding token payload:"; Caught JS.RangeError]],
     inr []).
Proof.
  intros Hp Hj Ho.
  assert (Hs : JS.truthy_units (Some segment) = true).
  { destruct segment; [|reflexivity].
    rewrite decoded_empty_not_json in Hj. discriminate. }
  fetch_unfold. unfold Spec.payload, Spec.parts in Hp.
  unfold Spec.decoded in Hj.
  cbn [JS.truthy_string JS.truthy_units negb orb]. rewrite Hp, Hs.
  cbn [negb]. rewrite Hj. cbn [snd fst app]. rewrite Ho. reflexivity.
Qed.

Lemma fetchUserRoles_parsed (u : ascii) (us : string) (c : N)
  (cs segment : JS.ustring) (v : JS.json) :
  Spec.payload (c :: cs) = Some segment ->
  JS.JSON_parse (Spec.decoded segment) = Some v ->
  result (fetchUserRoles overflows (Some (String u us)) (Some (c :: cs)))
  = if overflows v then inr []
    else
      match JS.get_prop v "scope" with
      | inl _ => inr []
      | inr scopes =>
          if JS.truthy scopes then
            match scopes with
            | Some (JS.JStr s) =>
                let scopeArray := JS.split JS.space s in
                inr ((if JS.includes_literal scopeArray "admin"
                      then [Sample.admin] else [])
                     ++ (if JS.includes_literal scopeArray "staff"
                         then [Sample.staff] else [])
                     ++ (if JS.includes_literal scopeArray
                              "appid_manage_roles"
                         then [Sample.role_manager] else []))%list
            | _ => inr []
            end
          else inr []
      end.
Proof.
  intros Hp Hj.
  destruct (overflows v) eqn:Ho.
  { now rewrite (fetchUserRoles_overflow _ _ _ _ _ _ Hp Hj Ho). }
  assert (Hs : JS.truthy_units (Some segment) = true).
  { destruct segment; [|reflexivity].
    rewrite decoded_empty_not_json in Hj. discriminate. }
  fetch_unfold. unfold Spec.payload, Spec.parts in Hp.
  unfold Spec.decoded in Hj.
  cbn [JS.truthy_string JS.truthy_units negb orb]. rewrite Hp, Hs.
  cbn [negb]. rewrite Hj. cbn [snd fst app]. rewrite Ho. cbn [snd fst app].
  destruct (JS.get_prop v "scope") as [e|scopes]; [reflexivity|].
  cbn [snd fst app].
  destruct (JS.truthy scopes) eqn:Ht; cbn [negb]; [|reflexivity].
  destruct scopes as [[| | |s| |]|]; try reflexivity.
  cbn zeta.
  destruct (JS.includes_literal (JS.split JS.space s) "admin"),
           (JS.includes_literal (JS.split JS.space s) "staff"),
           (JS.includes_literal (JS.split JS.space s) "appid_manage_roles");
    reflexivity.
Qed.

Lemma fetchUserRoles_missing (userId : option string)
  (accessToken : option JS.ustring) :
  JS.truthy_string userId = false \/ JS.truthy_units accessToken = false ->
  fetchUserRoles overflows userId accessToken
  = ([Error [Text "Missing userId or accessToken"]], inr []).
Proof.
  intros H. fetch_unfold.
  destruct H as [H|H]; rewrite H; cbn [negb orb]; [reflexivity|].
  rewrite orb_true_r. reflexivity.
Qed.

Lemma fetchUserRoles_no_value (userId : option string)
  (token : JS.ustring) :
  Spec.payload_value token = None ->
  result (fetchUserRoles overflows userId (Some token)) = inr [].
Proof.
  intros H.
  destruct userId as [[|u us]|];
    try (rewrite fetchUserRoles_missing; [reflexivity | now left]).
  destruct token as [|c cs];
    [rewrite fetchUserRoles_missing; [reflexivity | now right]|].
  unfold Spec.payload_value in H.
  destruct (Spec.payload (c :: cs)) as [segment|] eqn:Hp.
  - now apply fetchUserRoles_not_json with (segment := segment).
  - rewrite fetchUserRoles_no_payload; [reflexivity|]. now rewrite Hp.
Qed.

Lemma fetchUserRoles_no_claim (userId : option string)
  (token : JS.ustring) :
  Spec.scope_claim token = None ->
  result (fetchUserRoles overflows userId (Some token)) = inr [].
Proof.
  intros H.
  destruct (Spec.payload_value token) as [v|] eqn:Hv;
    [|now apply fetchUserRoles_no_value].
  destruct userId as [[|u us]|];
    try (rewrite fetchUserRoles_missing; [reflexivity | now left]).
  destruct (payload_value_Some _ _ Hv) as (c & cs & segment & -> & Hp & Hj).
  unfold Spec.scope_claim in H. rewrite Hv in H.
  rewrite (fetchUserRoles_parsed _ _ _ _ _ _ Hp Hj).
  destruct (overflows v); [reflexivity|].
  destruct (JS.get_prop v "scope") as [e|claim]; [reflexivity|].
  subst claim. reflexivity.
Qed.

Lemma fetchUserRoles_returns (userId : option string)
  (accessToken : option JS.ustring) :
  exists roles,
    result (fetchUserRoles overflows userId accessToken) = inr roles.
Proof.
  destruct userId as [[|u us]|];
    try (rewrite fetchUserRoles_missing; [now eexists | now left]).
  destruct accessToken as [[|c cs]|];
    try (rewrite fetchUserRoles_missing; [now eexists | now right]).
  destruct (Spec.payload (c :: cs)) as [segment|] eqn:Hp.
  - destruct (JS.JSON_parse (Spec.decoded segment)) as [v|] eqn:Hj.
    + rewrite (fetchUserRoles_parsed _ _ _ _ _ _ Hp Hj).
      destruct (overflows v); [now eexists|].
      destruct (JS.get_prop v "scope") as [e|claim]; [now eexists|].
      destruct (JS.truthy claim); [|now eexists].
      destruct claim as [[| | |s| |]|]; now eexists.
    + rewrite (fetchUserRoles_not_json _ _ _ _ _ Hp Hj). now eexists.
  - rewrite fetchUserRoles_no_payload; [now eexists|]. now rewrite Hp.
Qed.

(** C3, as amended: [fetchUserRoles] never throws, and it returns the empty
    list of roles when the token is missing, when the token has no second
    dot-separated part or an empty one, when that part, decoded as the runtime
    decodes base64, is not JSON, and when the parsed payload holds no [scope]
    claim, as is the case of [null] and of every payload that is not an
    object. *)
Theorem fetchUserRoles_fails_softly :
  (forall userId accessToken,
      exists roles,
        result (fetchUserRoles overflows userId accessToken) = inr roles)
  /\
  (forall userId accessToken,
      (accessToken = None
       \/ exists token,
           accessToken = Some token /\
           (JS.truthy_units (Spec.payload token) = false
            \/ (exists segment,
                   Spec.payload token = Some segment /\
                   JS.JSON_parse (Spec.decoded segment) = None)
            \/ Spec.scope_claim token = None)) ->
      result (fetchUserRoles overflows userId accessToken) = inr [])
  /\
  (forall userId token v,
      Spec.payload_value token = Some v ->
      (forall members, v <> JS.JObj members) ->
      Spec.scope_claim token = None
      /\ result (fetchUserRoles overflows userId (Some token)) = inr []).
Proof.
  split; [exact fetchUserRoles_returns|]. split.
  - intros userId accessToken [H | [token [-> H]]].
    + subst. rewrite fetchUserRoles_missing; [reflexivity | now right].
    + apply fetchUserRoles_no_claim.
      unfold Spec.scope_claim, Spec.payload_value.
      destruct H as [H | [[segment [Hp Hj]] | H]].
      * apply truthy_units_false in H. destruct H as [-> | ->];
          [reflexivity | now rewrite decoded_empty_not_json].
      * now rewrite Hp, Hj.
      * exact H.
  - intros userId token v Hv Hobj.
    assert (Hc : Spec.scope_claim token = None).
    { unfold Spec.scope_claim. rewrite Hv.
      destruct v; try reflexivity. now destruct (Hobj members). }
    split; [exact Hc | now apply fetchUserRoles_no_claim].
Qed.

(** C4, as amended: when a non-empty user id comes with the token, and the
    payload of the token carries a string [scope] claim, then, if
    [JSON.stringify] can print the payload, the roles returned are those the
    table [Spec.roleMapping] gives for the space-separated scopes of the
    claim, whatever their order, however often they are repeated, and
    whatever other scopes stand beside them; with [admin] and [staff] among
    the scopes and [appid_manage_roles] not, they are exactly the roles
    [admin] and [staff]; and if [JSON.stringify] fails on the payload, no
    role is returned. *)
Theorem fetchUserRoles_maps_scopes (userId : string)
  (token s : JS.ustring) (v : JS.json) :
  userId <> EmptyString ->
  Spec.payload_value token = Some v ->
  Spec.scope_claim token = Some (JS.JStr s) ->
  (overflows v = false ->
   exists roles,
     result (fetchUserRoles overflows (Some userId) (Some token)) = inr roles
     /\ (forall r,
            In r roles <->
            exists scope,
              In (JS.units scope) (Spec.scope_tokens s)
              /\ In (scope, r) Spec.roleMapping)
     /\ (In (JS.units "admin") (Spec.scope_tokens s) ->
         In (JS.units "staff") (Spec.scope_tokens s) ->
         ~ In (JS.units "appid_manage_roles") (Spec.scope_tokens s) ->
         roles = [Sample.admin; Sample.staff]))
  /\
  (overflows v = true ->
   result (fetchUserRoles overflows (Some userId) (Some token)) = inr []).
Proof.
  intros Hu Hv Hc.
  destruct userId as [|u us]; [congruence|].
  destruct (payload_value_Some _ _ Hv) as (c & cs & segment & -> & Hp & Hj).
  unfold Spec.scope_claim in Hc. rewrite Hv in Hc.
  destruct (JS.get_prop v "scope") as [e|claim] eqn:Hg; [discriminate|].
  subst claim.
  rewrite (fetchUserRoles_parsed _ _ _ _ _ _ Hp Hj), Hg.
  split; intros Ho; rewrite Ho; [|reflexivity].
  unfold Spec.scope_tokens.
  destruct s as [|a s'].
  - exists []. cbn [JS.truthy]. split; [reflexivity|]. split.
    + intros r. split; [intros []|].
      intros [scope [[H|[]] Hm]]. apply roleMapping_In in Hm.
      destruct Hm as [[-> _]|[[-> _]|[-> _]]]; discriminate.
    + intros [H|[]]. discriminate.
  - cbn [JS.truthy]. cbv zeta. eexists. split; [reflexivity|]. split.
    + intros r. apply conditionals_follow_table.
    + intros Ha Hs Hm.
      apply includes_literal_In in Ha. apply includes_literal_In in Hs.
      apply includes_literal_not_In in Hm. rewrite Ha, Hs, Hm. reflexivity.
Qed.

(** C5, as amended: the outcome of [fetchUserRoles], console lines included,
    is determined by the access token together with whether the user id is a
    non-empty string; its only effect is what it writes to the console; with
    a user id in hand the roles depend on nothing but the value the payload
    segment of the token decodes to; and among the payloads [JSON.stringify]
    can print, on nothing but their [scope] claim. *)
Theorem fetchUserRoles_determined_by :
  (forall userId userId' accessToken,
      JS.truthy_string userId = JS.truthy_string userId' ->
      fetchUserRoles overflows userId accessToken
      = fetchUserRoles overflows userId' accessToken)
  /\
  (forall userId userId' token token',
      JS.truthy_string userId = true ->
      JS.truthy_string userId' = true ->
      Spec.payload_value token = Spec.payload_value token' ->
      result (fetchUserRoles overflows userId (Some token))
      = result (fetchUserRoles overflows userId' (Some token')))
  /\
  (forall userId userId' token token',
      JS.truthy_string userId = true ->
      JS.truthy_string userId' = true ->
      (forall v, Spec.payload_value token = Some v -> overflows v = false) ->
      (forall v, Spec.payload_value token' = Some v -> overflows v = false) ->
      Spec.scope_claim token = Spec.scope_claim token' ->
      result (fetchUserRoles overflows userId (Some token))
      = result (fetchUserRoles overflows userId' (Some token'))).
Proof.
  split; [|split].
  - intros userId userId' accessToken H.
    unfold fetchUserRoles. rewrite H. reflexivity.
  - intros userId userId' token token' Hu Hu' Hv.
    destruct userId as [[|u us]|]; try discriminate.
    destruct userId' as [[|u' us']|]; try discriminate.
    destruct (Spec.payload_value token') as [v|] eqn:Hv'.
    + destruct (payload_value_Some _ _ Hv)
        as (c & cs & segment & -> & Hp & Hj).
      destruct (payload_value_Some _ _ Hv')
        as (c' & cs' & segment' & -> & Hp' & Hj').
      rewrite (fetchUserRoles_parsed _ _ _ _ _ _ Hp Hj).
      rewrite (fetchUserRoles_parsed _ _ _ _ _ _ Hp' Hj').
      reflexivity.
    + rewrite (fetchUserRoles_no_value _ _ Hv).
      rewrite (fetchUserRoles_no_value _ _ Hv'). reflexivity.
  - intros userId userId' token token' Hu Hu' Ho Ho' Hc.
    destruct userId as [[|u us]|]; try discriminate.
    destruct userId' as [[|u' us']|]; try discriminate.
    destruct (Spec.scope_claim token') as [claim|] eqn:Hc'.
    + destruct (scope_claim_Some _ _ Hc)
        as (c & cs & segment & v & -> & Hp & Hj & Hg).
      destruct (scope_claim_Some _ _ Hc')
        as (c' & cs' & segment' & v' & -> & Hp' & Hj' & Hg').
      rewrite (fetchUserRoles_parsed _ _ _ _ _ _ Hp Hj), Hg.
      rewrite (fetchUserRoles_parsed _ _ _ _ _ _ Hp' Hj'), Hg'.
      rewrite (Ho v), (Ho' v'); [reflexivity| |];
        unfold Spec.payload_value; [now rewrite Hp' | now rewrite Hp].
    + rewrite (fetchUserRoles_no_claim _ _ Hc).
      rewrite (fetchUserRoles_no_claim _ _ Hc'). reflexivity.
Qed.

End Runtime.

(** A token of a single part, one whose payload has no [scope], one whose
    payload is cut short, and one whose payload is [null]. *)
Lemma fetchUserRoles_fails_softly_witness :
  result (fetchUserRoles Sample.overflows (Some "u1") (Some (JS.units "abc")))
  = inr []
  /\ result (fetchUserRoles Sample.overflows (Some "u1")
               (Some Sample.token_no_scope))
     = inr []
  /\ result (fetchUserRoles Sample.overflows (Some "u1")
               (Some Sample.token_truncated))
     = inr []
  /\ result (fetchUserRoles Sample.overflows (Some "u1")
               (Some (JS.units "h.bnVsbA.s")))
     = inr [].
Proof.
  split; [|split; [|split]].
  1-3: apply (proj1 (proj2 (fetchUserRoles_fails_softly Sample.overflows)));
    right; eexists; (split; [reflexivity|]).
  - left. reflexivity.
  - right. right. vm_compute. reflexivity.
  - right. left. exists (JS.units "eyJzY29wZSI6").
    split; vm_compute; reflexivity.
  - apply (proj2 (proj2 (fetchUserRoles_fails_softly Sample.overflows))
             (Some "u1") (JS.units "h.bnVsbA.s") JS.JNull).
    + vm_compute. reflexivity.
    + discriminate.
Defined.

(** C3, as stated, fails: a token of two parts is not rejected, and neither
    is a payload segment with a character outside the base64url alphabet. *)
Lemma fetchUserRoles_two_parts_accepted :
  (length (Spec.parts Sample.token_two_parts) < 3)%nat
  /\ result (fetchUserRoles Sample.overflows (Some "u1")
               (Some Sample.token_two_parts))
     = inr [Sample.admin]
  /\ (exists segment,
         Spec.payload Sample.token_star = Some segment
         /\ JS.valid_base64url segment = false)
  /\ result (fetchUserRoles Sample.overflows (Some "u1")
               (Some Sample.token_star))
     = inr [Sample.admin].
Proof.
  split; [vm_compute; lia|].
  split; [vm_compute; reflexivity|].
  split; [|vm_compute; reflexivity].
  exists (JS.units "eyJzY29wZSI6*ImFkbWluIn0").
  split; vm_compute; reflexivity.
Qed.

(** The claim [admin staff], and a claim with the scopes in another order,
    one of them twice, among scopes the table does not know. *)
Lemma fetchUserRoles_maps_scopes_witness :
  result (fetchUserRoles Sample.overflows (Some "u1")
            (Some Sample.token_admin_staff))
  = inr [Sample.admin; Sample.staff]
  /\ result (fetchUserRoles Sample.overflows (Some "u1")
               (Some Sample.token_shuffled))
     = inr [Sample.admin; Sample.staff].
Proof.
  split.
  - destruct (fetchUserRoles_maps_scopes Sample.overflows "u1"
                Sample.token_admin_staff (JS.units "admin staff")
                (JS.JObj [(JS.units "scope",
                           JS.JStr (JS.units "admin staff"))]))
      as [H _].
    + discriminate.
    + vm_compute. reflexivity.
    + vm_compute. reflexivity.
    + destruct (H eq_refl) as (roles & Hr & _ & Heq).
      rewrite Hr. f_equal. apply Heq.
      * vm_compute. auto.
      * vm_compute. auto.
      * vm_compute. intros [H0|[H0|[]]]; discriminate.
  - destruct (fetchUserRoles_maps_scopes Sample.overflows "u1"
                Sample.token_shuffled
                (JS.units "staff openid admin staff email")
                (JS.JObj [(JS.units "scope",
                           JS.JStr
                             (JS.units "staff openid admin staff email"))]))
      as [H _].
    + discriminate.
    + vm_compute. reflexivity.
    + vm_compute. reflexivity.
    + destruct (H eq_refl) as (roles & Hr & _ & Heq).
      rewrite Hr. f_equal. apply Heq.
      * vm_compute. auto.
      * vm_compute. auto 6.
      * vm_compute. intros [H0|[H0|[H0|[H0|[H0|[]]]]]]; discriminate.
Defined.

(** C4, as stated, fails: without a user id the same token yields no role. *)
Lemma fetchUserRoles_needs_userId :
  Spec.scope_claim Sample.token_admin_staff
  = Some (JS.JStr (JS.units "admin staff"))
  /\ result (fetchUserRoles Sample.overflows None
               (Some Sample.token_admin_staff)) = inr []
  /\ result (fetchUserRoles Sample.overflows (Some EmptyString)
               (Some Sample.token_admin_staff))
     = inr [].
Proof. repeat split. Qed.

(** A payload nested deeper than [JSON.stringify] can follow: the token is
    well formed and its [scope] claim is [admin staff], yet the call returns
    no role, and the one line it writes is that of the inner handler. *)
Example fetchUserRoles_deep_payload :
  Spec.scope_claim Sample.token_deep
  = Some (JS.JStr (JS.units "admin staff"))
  /\ fetchUserRoles Sample.overflows (Some "u1") (Some Sample.token_deep)
     = ([Error [Text "Error decoding token payload:"; Caught JS.RangeError]],
        inr []).
Proof. split; vm_compute; reflexivity. Qed.

(** Two user ids with one token; one user id with two tokens that differ in
    header and signature only, and with two tokens whose payloads differ
    but for the [scope] claim. *)
Lemma fetchUserRoles_determined_by_witness :
  fetchUserRoles Sample.overflows (Some "u1") (Some Sample.token_admin_staff)
  = fetchUserRoles Sample.overflows (Some "someone else")
      (Some Sample.token_admin_staff)
  /\ result (fetchUserRoles Sample.overflows (Some "u1")
               (Some Sample.token_admin_staff))
     = result (fetchUserRoles Sample.overflows (Some "u1")
                 (Some (JS.units
                    "other.eyJzY29wZSI6ImFkbWluIHN0YWZmIn0.signature")))
  /\ result (fetchUserRoles Sample.overflows (Some "u1")
               (Some Sample.token_admin_staff))
     = result (fetchUserRoles Sample.overflows (Some "u1")
                 (Some Sample.token_with_sub)).
Proof.
  split; [|split].
  - apply (proj1 (fetchUserRoles_determined_by Sample.overflows) (Some "u1")
             (Some "someone else")).
    reflexivity.
  - apply (proj1 (proj2 (fetchUserRoles_determined_by Sample.overflows))
             (Some "u1") (Some "u1"));
      [reflexivity | reflexivity | vm_compute; reflexivity].
  - apply (proj2 (proj2 (fetchUserRoles_determined_by Sample.overflows))
             (Some "u1") (Some "u1")); try reflexivity.
    + intros v H. vm_compute in H. inversion H. reflexivity.
    + intros v H. vm_compute in H. inversion H. reflexivity.
Defined.

(** C5, as stated, fails: one token, two user ids, two different results. *)
Lemma fetchUserRoles_depends_on_userId :
  result (fetchUserRoles Sample.overflows None
            (Some Sample.token_admin_staff))
  <> result (fetchUserRoles Sample.overflows (Some "u1")
               (Some Sample.token_admin_staff)).
Proof. vm_compute. discriminate. Qed.

End TokenProcessor.

(** ** Profile normalisation: [profile] *)
Module ProfileNormalizer.
Import Console NextAuthConfig.

Section Runtime.

Variable overflows : JS.json -> bool.

(** [profile] always returns: the record it builds, with the roles
    [fetchUserRoles] resolved to. *)
Lemma profile_returns (p : Profile.t) (t : TokenInfo.t) :
  exists roles,
    result (fetchUserRoles overflows (Profile.sub p)
              (TokenInfo.access_token t))
    = inr roles
    /\ result (profile overflows p t)
       = inr {| User.id := Profile.sub p;
                User.name :=
                  Some (or_string (Profile.name p)
                          (JS.template (Profile.given_name p) ++ " "
                           ++ JS.template (Profile.family_name p)));
                User.email := Profile.email p;
                User.image := None;
                User.roles := Some roles;
                User.email_verified := Profile.email_verified p;
                User.identities :=
                  Some (match Profile.identities p with
                        | Some l => l
                        | None => []
                        end) |}.
Proof.
  destruct (TokenProcessor.fetchUserRoles_returns overflows (Profile.sub p)
              (TokenInfo.access_token t)) as [roles Hr].
  exists roles. split; [exact Hr|].
  unfold profile, bind, console_log, ret, result in *.
  destruct (fetchUserRoles overflows (Profile.sub p)
              (TokenInfo.access_token t))
    as [out [e|roles']]; simpl in Hr; [discriminate|].
  inversion Hr; subst. reflexivity.
Qed.

(** C2, as amended: for a raw profile without a subject identifier [profile]
    raises nothing; it returns a user record whose [id] is absent and whose
    list of roles is empty. *)
Theorem profile_without_subject (p : Profile.t) (t : TokenInfo.t) :
  Profile.sub p = None ->
  exists user,
    result (profile overflows p t) = inr user
    /\ User.id user = None
    /\ User.roles user = Some [].
Proof.
  intros Hsub. destruct (profile_returns p t) as (roles & Hr & Hp).
  rewrite Hsub in Hr.
  rewrite TokenProcessor.fetchUserRoles_missing in Hr by (now left).
  inversion Hr; subst roles.
  eexists. split; [exact Hp|]. split; [exact Hsub | reflexivity].
Qed.

(** C6, as amended: [profile] returns a record with the subject as [id];
    when the profile has no display name (or an empty one) the name is the
    given name, a space and the family name, an absent part being rendered
    as the template literal renders it; [email] and [email_verified] are
    copied as they are, so that an absent one stays absent; absent
    [identities] become the empty list. *)
Theorem profile_defaults (p : Profile.t) (t : TokenInfo.t) :
  exists user,
    result (profile overflows p t) = inr user
    /\ User.id user = Profile.sub p
    /\ (JS.truthy_string (Profile.name p) = false ->
        User.name user
        = Some (JS.template (Profile.given_name p) ++ " "
                ++ JS.template (Profile.family_name p))
        /\ forall given family,
            Profile.given_name p = Some given ->
            Profile.family_name p = Some family ->
            User.name user = Some (given ++ " " ++ family))
    /\ (forall name,
           Profile.name p = Some name -> name <> EmptyString ->
           User.name user = Some name)
    /\ User.email user = Profile.email p
    /\ User.email_verified user = Profile.email_verified p
    /\ (Profile.identities p = None -> User.identities user = Some [])
    /\ (forall l, Profile.identities p = Some l ->
                  User.identities user = Some l).
Proof.
  destruct (profile_returns p t) as (roles & _ & Hp).
  eexists. split; [exact Hp|]. cbn [User.id User.name User.email
    User.email_verified User.identities].
  split; [reflexivity|]. split.
  { intros Hn. apply TokenProcessor.truthy_string_false in Hn. split.
    - destruct Hn as [-> | ->]; reflexivity.
    - intros given family -> ->. destruct Hn as [-> | ->]; reflexivity. }
  split.
  { intros name -> Hne. destruct name; [congruence | reflexivity]. }
  split; [reflexivity|]. split; [reflexivity|]. split.
  - intros ->. reflexivity.
  - intros l ->. reflexivity.
Qed.

End Runtime.

Lemma profile_without_subject_witness :
  exists user,
    result (profile Sample.overflows Sample.profile_no_sub Sample.tokens)
    = inr user
    /\ User.id user = None
    /\ User.roles user = Some [].
Proof.
  apply (profile_without_subject Sample.overflows Sample.profile_no_sub
           Sample.tokens).
  reflexivity.
Defined.

(** C2, as stated, fails: with no subject, [profile] returns a record. *)
Lemma profile_without_subject_returns :
  Profile.sub Sample.profile_no_sub = None
  /\ result (profile Sample.overflows Sample.profile_no_sub Sample.tokens)
     = inr {| User.id := None;
              User.name := Some "Ann";
              User.email := Some "ann@example.org";
              User.image := None;
              User.roles := Some [];
              User.email_verified := Some true;
              User.identities := Some [] |}.
Proof. split; reflexivity. Qed.

(** Subject [u1], no display name, given name [A], family name [B]. *)
Lemma profile_defaults_witness :
  exists user,
    result (profile Sample.overflows Sample.profile_AB Sample.tokens)
    = inr user
    /\ User.id user = Some "u1"
    /\ User.name user = Some "A B"
    /\ User.identities user = Some [].
Proof.
  destruct (profile_defaults Sample.overflows Sample.profile_AB
              Sample.tokens)
    as (user & Hr & Hid & Hname & _ & _ & _ & Hids & _).
  exists user. split; [exact Hr|]. split; [exact Hid|]. split.
  - apply (proj2 (Hname eq_refl) "A" "B"); reflexivity.
  - apply Hids. reflexivity.
Defined.

(** C6, as stated, fails: an absent [email] is not replaced by the empty
    string, nor an absent [email_verified] by [false]. *)
Lemma profile_keeps_absent_email :
  Profile.email Sample.profile_AB = None
  /\ Profile.email_verified Sample.profile_AB = None
  /\ exists user,
       result (profile Sample.overflows Sample.profile_AB Sample.tokens)
       = inr user
       /\ User.email user = None
       /\ User.email user <> Some EmptyString
       /\ User.email_verified user = None
       /\ User.email_verified user <> Some false.
Proof.
  split; [reflexivity|]. split; [reflexivity|].
  eexists. split; [vm_compute; reflexivity|].
  cbn. repeat split; discriminate.
Qed.

End ProfileNormalizer.

(** ** The callbacks [jwt] and [session] *)
Module SessionEnricher.
Import Console NextAuthConfig.

Section Runtime.

Variable overflows : JS.json -> bool.

(** C7: without fresh account and profile data, [jwt] returns the token it
    was given, every field as it was, and writes nothing; a token is given
    new roles only when both are there, and then the user and the roles are
    built anew, the roles being the ones [fetchUserRoles] derives from the
    fresh access token: nothing of the user the old record held goes into
    the new one. *)
Theorem jwt_passes_token_through :
  (forall token account profile user,
      account = None \/ profile = None ->
      jwt overflows token account profile user = ret token)
  /\
  (forall token account profile user token',
      result (jwt overflows token (Some account) (Some profile) user)
      = inr token' ->
      (exists roles u,
          result (fetchUserRoles overflows (Profile.sub profile)
                    (Account.access_token account)) = inr roles
          /\ JWT.user token' = Some u
          /\ User.roles u = Some roles
          /\ JWT.accessToken token' = Account.access_token account
          /\ JWT.claims token' = JWT.claims token)
      /\
      (forall old, exists token'',
          result (jwt overflows old (Some account) (Some profile) user)
          = inr token''
          /\ JWT.user token'' = JWT.user token'
          /\ JWT.accessToken token'' = JWT.accessToken token')).
Proof.
  split.
  - intros token account profile user [-> | ->];
      [reflexivity | destruct account; reflexivity].
  - intros token account profile user token' H.
    destruct (TokenProcessor.fetchUserRoles_returns overflows
                (Profile.sub profile) (Account.access_token account))
      as [roles Hr].
    unfold jwt, bind, coalesce_user, console_log, ret, throw, result in *.
    destruct (fetchUserRoles overflows (Profile.sub profile)
                (Account.access_token account)) as [out [e|roles']];
      simpl in Hr; [discriminate|].
    inversion Hr; subst roles'.
    destruct (Profile.email profile), (Profile.name profile), user;
      simpl in H; try discriminate; inversion H; subst token';
      (split;
       [ exists roles; eexists; repeat split
       | intros old; eexists; repeat split ]).
Qed.

End Runtime.

Lemma jwt_passes_token_through_witness :
  jwt Sample.overflows Sample.jwt_staff None (Some Sample.profile_AB)
    (Some Sample.user_staff)
  = ret Sample.jwt_staff
  /\ jwt Sample.overflows Sample.jwt_staff (Some Sample.account) None None
     = ret Sample.jwt_staff
  /\ exists token' u,
       result (jwt Sample.overflows Sample.jwt_staff (Some Sample.account)
                 (Some Sample.profile_AB) (Some Sample.user_staff))
       = inr token'
       /\ JWT.user token' = Some u
       /\ User.roles u = Some [Sample.admin; Sample.staff].
Proof.
  split; [|split].
  - apply (proj1 (jwt_passes_token_through Sample.overflows)). left.
    reflexivity.
  - apply (proj1 (jwt_passes_token_through Sample.overflows)). right.
    reflexivity.
  - eexists.
    destruct (proj2 (jwt_passes_token_through Sample.overflows)
                Sample.jwt_staff Sample.account
                Sample.profile_AB (Some Sample.user_staff) _ eq_refl)
      as ((roles & u & Hr & Hu & Hroles & _) & _).
    exists u. split; [reflexivity|]. split; [exact Hu|].
    rewrite Hroles. vm_compute in Hr. inversion Hr. reflexivity.
Defined.

(** What [session] does to any session and any token record: it never
    throws and writes nothing; the access token of the result is the
    record's; the user is the record's when the record has one, and the
    incoming session's otherwise; [expires] is left alone. *)
Lemma session_returns (s : Session.t) (token : JWT.t) :
  session s token
  = ret {| Session.user :=
             match JWT.user token with
             | Some u => Some u
             | None => Session.user s
             end;
           Session.expires := Session.expires s;
           Session.accessToken := JWT.accessToken token |}.
Proof.
  unfold session. destruct (JWT.user token); reflexivity.
Qed.

(** C8: for a durable record, which holds a user, [session] neither throws
    nor writes; the view of the session it returns is
    [SessionView{user: record.user, accessToken: record.accessToken}],
    whatever session came in; hence two calls on one record, be it with two
    different incoming sessions or with the result of the first call, give
    equal views. *)
Theorem session_projects_token (token : JWT.t) (u : User.t) :
  JWT.user token = Some u ->
  (forall s, exists s',
      session s token = ret s'
      /\ Spec.view_of s'
         = Some {| Spec.view_user := u;
                   Spec.view_accessToken := JWT.accessToken token |})
  /\
  (forall s1 s2 s1' s2',
      session s1 token = ret s1' ->
      session s2 token = ret s2' ->
      Spec.view_of s1' = Spec.view_of s2')
  /\
  (forall s s',
      session s token = ret s' -> session s' token = ret s').
Proof.
  intros Hu. split; [|split].
  - intros s. eexists. split; [apply session_returns|].
    unfold Spec.view_of. cbn. rewrite Hu. reflexivity.
  - intros s1 s2 s1' s2' H1 H2.
    rewrite session_returns in H1, H2. unfold ret in H1, H2.
    inversion H1; inversion H2; subst.
    unfold Spec.view_of. cbn. rewrite Hu. reflexivity.
  - intros s s' H. rewrite session_returns in H. unfold ret in H.
    inversion H; subst. rewrite session_returns. cbn. rewrite Hu.
    reflexivity.
Qed.

(** The session NextAuth hands in, against the record of a [staff] user. *)
Lemma session_projects_token_witness :
  exists s',
    session Sample.session_default Sample.jwt_staff = ret s'
    /\ Spec.view_of s'
       = Some {| Spec.view_user := Sample.user_staff;
                 Spec.view_accessToken := Some Sample.token_admin_staff |}.
Proof.
  apply (proj1 (session_projects_token Sample.jwt_staff Sample.user_staff
                  eq_refl) Sample.session_default).
Defined.

End SessionEnricher.
(** ** The route guard: [withAuth] *)
Module RouteGuard.
Import Guard.

Section Facts.

Variables World Context Props Exn : Type.
Variable getSession : Context -> World -> option Session.t * World.

Lemma hasRequiredRole_true (session : Session.t)
  (requiredRoles : list string) :
  hasRequiredRole session requiredRoles = true <->
  exists role, In role requiredRoles /\ In role (userRoles session).
Proof.
  unfold hasRequiredRole. rewrite existsb_exists.
  split; intros [role [Hin H]]; exists role; split; try assumption;
    now apply TokenProcessor.includes_In.
Qed.

Lemma hasRequiredRole_false (session : Session.t)
  (requiredRoles : list string) :
  hasRequiredRole session requiredRoles = false <->
  forall role, In role requiredRoles -> ~ In role (userRoles session).
Proof.
  split.
  - intros H role Hin Hu.
    assert (Ht : hasRequiredRole session requiredRoles = true)
      by (apply hasRequiredRole_true; eauto).
    congruence.
  - intros H. destruct (hasRequiredRole session requiredRoles) eqn:E;
      [|reflexivity].
    apply hasRequiredRole_true in E. destruct E as [role [Hin Hu]].
    exfalso. eapply H; eassumption.
Qed.

(** The role names [withAuth] compares are the names of the roles in the
    roles list of the session; there is none when the user or the list is
    missing. *)
Lemma userRoles_names (session : Session.t) :
  userRoles session
  = match Spec.session_roles (Some session) with
    | Some roles => map Role.name roles
    | None => []
    end.
Proof.
  unfold userRoles, Spec.session_roles.
  destruct (Session.user session) as [u|]; reflexivity.
Qed.

(** C1: for a loader, an optional non-empty list of required role names,
    and a request: when no session resolves the wrapped loader returns the
    redirect to the sign-in entry point; when a session resolves, required
    roles are given and none of them is the name of a role in the roles
    list of the session, it returns the redirect to [/unauthorized]; in
    both cases the world is as [getSession] left it and nothing depends on
    the loader, which has not run; in every other case (no required roles,
    or one of them is the name of a role of the session) the outcome is the
    loader's own, run after [getSession]. *)
Theorem withAuth_guards
  (gssp : GetServerSideProps World Context Props Exn)
  (requiredRoles : option (list string)) (context : Context)
  (world : World) :
  requiredRoles <> Some [] ->
  (forall world',
      getSession context world = (None, world') ->
      withAuth getSession gssp requiredRoles context world
      = (inr (redirect "/api/auth/signin" false), world'))
  /\
  (forall session world' required,
      getSession context world = (Some session, world') ->
      requiredRoles = Some required ->
      (forall roles role,
          Spec.session_roles (Some session) = Some roles ->
          In role required -> ~ In role (map Role.name roles)) ->
      withAuth getSession gssp requiredRoles context world
      = (inr (redirect "/unauthorized" false), world'))
  /\
  (forall session world',
      getSession context world = (Some session, world') ->
      (requiredRoles = None
       \/ exists required roles role,
           requiredRoles = Some required
           /\ Spec.session_roles (Some session) = Some roles
           /\ In role required /\ In role (map Role.name roles)) ->
      withAuth getSession gssp requiredRoles context world
      = gssp context world').
Proof.
  intros Hne. unfold withAuth. split; [|split].
  - intros world' ->. reflexivity.
  - intros session world' required -> -> Hnone.
    destruct required as [|r rs]; [congruence|].
    assert (Hf : hasRequiredRole session (r :: rs) = false).
    { apply hasRequiredRole_false. intros role Hin.
      rewrite userRoles_names.
      destruct (Spec.session_roles (Some session)) as [roles|] eqn:E;
        [|intros []].
      now apply (Hnone roles role). }
    rewrite Hf. reflexivity.
  - intros session world' ->
      [-> | (required & roles & role & -> & Hr & Hin & Hu)];
      [reflexivity|].
    destruct required as [|r rs]; [reflexivity|].
    assert (Ht : hasRequiredRole session (r :: rs) = true).
    { apply hasRequiredRole_true. exists role. split; [exact Hin|].
      rewrite userRoles_names, Hr. exact Hu. }
    rewrite Ht. reflexivity.
Qed.

(** C10: with a session present, [withAuth(loader, [])] makes no role check
    and returns what the loader returns; on every request it behaves as
    [withAuth(loader)] does. *)
Theorem withAuth_empty_roles
  (gssp : GetServerSideProps World Context Props Exn) (context : Context)
  (world : World) :
  withAuth getSession gssp (Some []) context world
  = withAuth getSession gssp None context world
  /\
  (forall session world',
      getSession context world = (Some session, world') ->
      withAuth getSession gssp (Some []) context world
      = gssp context world').
Proof.
  unfold withAuth. split.
  - destruct (getSession context world) as [[session|] world'];
      reflexivity.
  - intros session world' ->. reflexivity.
Qed.

End Facts.

(** No session; a [staff] session against [admin]; a [staff] session against
    [admin] or [staff].  The world shows which handlers ran. *)
Lemma withAuth_guards_witness :
  withAuth Sample.getSession Sample.loader (Some ["admin"]) None []
  = (inr (redirect "/api/auth/signin" false), ["getSession"])
  /\ withAuth Sample.getSession Sample.loader (Some ["admin"])
       (Some Sample.session_staff) []
     = (inr (redirect "/unauthorized" false), ["getSession"])
  /\ withAuth Sample.getSession Sample.loader (Some ["admin"; "staff"])
       (Some Sample.session_staff) []
     = (inr (props "page"), ["getSession"; "loader"]).
Proof.
  split; [|split].
  - apply (withAuth_guards _ _ _ _ Sample.getSession Sample.loader
             (Some ["admin"]) None []); [discriminate | reflexivity].
  - apply (proj1 (proj2 (withAuth_guards _ _ _ _ Sample.getSession
             Sample.loader (Some ["admin"]) (Some Sample.session_staff) []
             ltac:(discriminate)))
             Sample.session_staff ["getSession"] ["admin"]);
      [reflexivity | reflexivity |].
    intros roles role Hr. inversion Hr; subst roles.
    simpl. intros [<-|[]] [H|[]]. discriminate.
  - change (inr (props "page"), ["getSession"; "loader"])
      with (Sample.loader (Some Sample.session_staff) ["getSession"]).
    apply (proj2 (proj2 (withAuth_guards _ _ _ _ Sample.getSession
             Sample.loader (Some ["admin"; "staff"])
             (Some Sample.session_staff) [] ltac:(discriminate)))
             Sample.session_staff ["getSession"]); [reflexivity|].
    right. exists ["admin"; "staff"], [Sample.staff], "staff".
    split; [reflexivity|]. split; [reflexivity|]. simpl. auto.
Defined.

Lemma withAuth_empty_roles_witness :
  withAuth Sample.getSession Sample.loader (Some [])
    (Some Sample.session_staff) []
  = (inr (props "page"), ["getSession"; "loader"]).
Proof.
  change (inr (props "page"), ["getSession"; "loader"])
    with (Sample.loader (Some Sample.session_staff) ["getSession"]).
  apply (proj2 (withAuth_empty_roles _ _ _ _ Sample.getSession Sample.loader
           (Some Sample.session_staff) [])
           Sample.session_staff ["getSession"]).
  reflexivity.
Defined.

End RouteGuard.

(** ** The role predicates *)
Module CapabilityGate.

(** C9, as amended: the predicates never raise.  Where the session, its user
    or its roles list is absent, [hasRole] yields [undefined], which is falsy,
    and the any-role test the guard makes on a resolved session yields
    [false]; with the list present [hasRole] tells whether a role of that
    name is in it; and for a session whose roles include [staff], the
    any-role test against [admin] and [staff] yields [true]. *)
Theorem role_predicates :
  (forall session roleName,
      Spec.session_roles session = None ->
      Layout.hasRole session roleName = JS.undefined
      /\ Layout.truthy (Layout.hasRole session roleName) = false)
  /\
  (forall session roleName roles,
      Spec.session_roles session = Some roles ->
      Layout.hasRole session roleName
      = Some (existsb (fun role => String.eqb (Role.name role) roleName)
                roles))
  /\
  (forall session requiredRoles,
      Spec.session_roles (Some session) = None ->
      Guard.hasRequiredRole session requiredRoles = false)
  /\
  (forall session roles,
      Spec.session_roles (Some session) = Some roles ->
      In "staff" (map Role.name roles) ->
      Guard.hasRequiredRole session ["admin"; "staff"] = true).
Proof.
  unfold Spec.session_roles, Layout.hasRole.
  split; [|split; [|split]].
  - intros [s|] roleName H; [|split; reflexivity].
    destruct (Session.user s) as [u|]; [|split; reflexivity].
    rewrite H. split; reflexivity.
  - intros [s|] roleName roles H; [|discriminate].
    destruct (Session.user s) as [u|]; [|discriminate].
    rewrite H. reflexivity.
  - intros session requiredRoles H.
    apply RouteGuard.hasRequiredRole_false. intros role _.
    unfold Guard.userRoles.
    destruct (Session.user session) as [u|]; [|intros []].
    rewrite H. intros [].
  - intros session roles H Hin.
    apply RouteGuard.hasRequiredRole_true. exists "staff". split.
    + simpl. auto.
    + unfold Guard.userRoles.
      destruct (Session.user session) as [u|]; [|discriminate].
      rewrite H. exact Hin.
Qed.

Lemma role_predicates_witness :
  Layout.hasRole None "admin" = JS.undefined
  /\ Layout.hasRole (Some Sample.session_staff) "staff" = Some true
  /\ Layout.hasRole (Some Sample.session_staff) "admin" = Some false
  /\ Guard.hasRequiredRole Sample.session_default ["admin"] = false
  /\ Guard.hasRequiredRole Sample.session_staff ["admin"; "staff"] = true.
Proof.
  destruct role_predicates as (Habsent & Hlist & Hany & Hstaff).
  split; [|split; [|split; [|split]]].
  - apply (Habsent None "admin"). reflexivity.
  - apply (Hlist (Some Sample.session_staff) "staff" [Sample.staff]).
    reflexivity.
  - apply (Hlist (Some Sample.session_staff) "admin" [Sample.staff]).
    reflexivity.
  - apply (Hany Sample.session_default ["admin"]). reflexivity.
  - apply (Hstaff Sample.session_staff [Sample.staff]);
      [reflexivity | simpl; auto].
Defined.

(** C9, as stated, fails: for an absent session the role test of the layout
    does not yield [false]; it yields [undefined]. *)
Lemma hasRole_absent_session_undefined :
  Layout.isAdmin None = JS.undefined
  /\ Layout.isAdmin None <> Some false
  /\ Layout.hasRole (Some Sample.session_default) "admin" <> Some false.
Proof.
  split; [reflexivity|]. split; discriminate.
Qed.

End CapabilityGate.

(** * Further properties of the code *)

(** ** More on [fetchUserRoles] *)
Module TokenFacts.
Import Console NextAuthConfig.

Lemma conditionals_are_table (scopeArray : list JS.ustring) :
  ((if JS.includes_literal scopeArray "admin" then [Sample.admin] else [])
   ++ (if JS.includes_literal scopeArray "staff" then [Sample.staff] else [])
   ++ (if JS.includes_literal scopeArray "appid_manage_roles"
       then [Sample.role_manager] else []))%list
  = Flow.roles_of_scopes scopeArray.
Proof.
  unfold Flow.roles_of_scopes, Spec.roleMapping. cbn [flat_map fst snd].
  destruct (JS.includes_literal scopeArray "admin"),
           (JS.includes_literal scopeArray "staff"),
           (JS.includes_literal scopeArray "appid_manage_roles"); reflexivity.
Qed.

Lemma roles_of_scopes_shape (scopeArray : list JS.ustring) :
  exists a s m : bool,
    Flow.roles_of_scopes scopeArray
    = ((if a then [Sample.admin] else [])
       ++ (if s then [Sample.staff] else [])
       ++ (if m then [Sample.role_manager] else []))%list.
Proof.
  rewrite <- conditionals_are_table.
  now exists (JS.includes_literal scopeArray "admin"),
    (JS.includes_literal scopeArray "staff"),
    (JS.includes_literal scopeArray "appid_manage_roles").
Qed.

Lemma split_no_sep (sep : N) (s : JS.ustring) :
  Flow.no_char sep s = true -> JS.split sep s = [s].
Proof.
  induction s as [|a s IH]; [reflexivity|]. cbn [Flow.no_char JS.split].
  intros H. apply andb_true_iff in H as [Ha Hs].
  apply negb_true_iff in Ha. rewrite Ha, (IH Hs). reflexivity.
Qed.

Lemma split_app_sep (sep : N) (h rest : JS.ustring) :
  Flow.no_char sep h = true ->
  JS.split sep (h ++ sep :: rest)%list = h :: JS.split sep rest.
Proof.
  induction h as [|a h IH]; intros H.
  - cbn. now rewrite N.eqb_refl.
  - cbn [Flow.no_char] in H. apply andb_true_iff in H as [Ha Hs].
    apply negb_true_iff in Ha. cbn [app JS.split].
    rewrite Ha, (IH Hs). reflexivity.
Qed.

Lemma payload_of_three (h p rest : JS.ustring) :
  Flow.no_char JS.dot h = true -> Flow.no_char JS.dot p = true ->
  Spec.payload (h ++ JS.dot :: p ++ JS.dot :: rest)%list = Some p.
Proof.
  intros Hh Hp. unfold Spec.payload, Spec.parts.
  rewrite (split_app_sep _ _ _ Hh), (split_app_sep _ _ _ Hp). reflexivity.
Qed.

Lemma payload_of_two (h p : JS.ustring) :
  Flow.no_char JS.dot h = true -> Flow.no_char JS.dot p = true ->
  Spec.payload (h ++ JS.dot :: p)%list = Some p.
Proof.
  intros Hh Hp. unfold Spec.payload, Spec.parts.
  rewrite (split_app_sep _ _ _ Hh), (split_no_sep _ _ Hp). reflexivity.
Qed.

Lemma app_sep_nonempty (h rest : JS.ustring) (sep : N) :
  (h ++ sep :: rest)%list <> [].
Proof. destruct h; discriminate. Qed.

Section Runtime.

Variable overflows : JS.json -> bool.

(** The roles returned are the ones [Flow.derived_roles] names. *)
Lemma fetchUserRoles_derives (userId : option string)
  (accessToken : option JS.ustring) :
  result (fetchUserRoles overflows userId accessToken)
  = inr (Flow.derived_roles overflows userId accessToken).
Proof.
  unfold Flow.derived_roles.
  destruct (JS.truthy_string userId) eqn:Hu.
  2:{ rewrite TokenProcessor.fetchUserRoles_missing by (now left).
      reflexivity. }
  destruct accessToken as [token|].
  2:{ rewrite TokenProcessor.fetchUserRoles_missing by (now right).
      reflexivity. }
  destruct (Spec.payload_value token) as [v|] eqn:Hv.
  2:{ now apply TokenProcessor.fetchUserRoles_no_value. }
  destruct userId as [[|u us]|]; try discriminate.
  destruct (TokenProcessor.payload_value_Some _ _ Hv)
    as (c & cs & segment & -> & Hp & Hj).
  rewrite (TokenProcessor.fetchUserRoles_parsed _ _ _ _ _ _ _ Hp Hj).
  destruct (overflows v); [reflexivity|].
  destruct (JS.get_prop v "scope") as [e|[claim|]]; try reflexivity.
  destruct claim as [| b | n | s | l | m]; cbn [JS.truthy].
  - reflexivity.
  - destruct b; reflexivity.
  - destruct (negb (JS.is_zero n)); reflexivity.
  - destruct s as [|a s']; [reflexivity|].
    cbv zeta. unfold Spec.scope_tokens. now rewrite conditionals_are_table.
  - reflexivity.
  - reflexivity.
Qed.

Lemma derived_roles_shape (userId : option string)
  (accessToken : option JS.ustring) :
  exists a s m : bool,
    Flow.derived_roles overflows userId accessToken
    = ((if a then [Sample.admin] else [])
       ++ (if s then [Sample.staff] else [])
       ++ (if m then [Sample.role_manager] else []))%list.
Proof.
  unfold Flow.derived_roles.
  destruct (JS.truthy_string userId); [|now exists false, false, false].
  destruct accessToken as [token|]; [|now exists false, false, false].
  destruct (Spec.payload_value token) as [v|];
    [|now exists false, false, false].
  destruct (overflows v); [now exists false, false, false|].
  destruct (JS.get_prop v "scope") as [e|[[| | |s| |]|]];
    try (now exists false, false, false).
  apply roles_of_scopes_shape.
Qed.

(** The roles a printable payload with a string [scope] claim stands
    for. *)
Lemma derived_roles_of_claim (userId : string) (token s : JS.ustring)
  (v : JS.json) :
  userId <> EmptyString ->
  Spec.payload_value token = Some v ->
  overflows v = false ->
  Spec.scope_claim token = Some (JS.JStr s) ->
  Flow.derived_roles overflows (Some userId) (Some token)
  = Flow.roles_of_scopes (Spec.scope_tokens s).
Proof.
  intros Hu Hv Ho Hc. unfold Flow.derived_roles.
  destruct userId as [|u us]; [congruence|]. cbn [JS.truthy_string].
  unfold Spec.scope_claim in Hc. rewrite Hv in Hc. rewrite Hv, Ho.
  destruct (JS.get_prop v "scope") as [e|claim]; [discriminate|].
  subst claim. reflexivity.
Qed.

(** X1.  Whatever it is given, [fetchUserRoles] returns a sub-list of
    [admin; staff; role_manager], in that order: no role comes twice, there
    are at most three, and each one has its name for [id]. *)
Theorem fetchUserRoles_roles_shape (userId : option string)
  (accessToken : option JS.ustring) (roles : list Role.t) :
  result (fetchUserRoles overflows userId accessToken) = inr roles ->
  (exists a s m : bool,
      roles = ((if a then [Sample.admin] else [])
               ++ (if s then [Sample.staff] else [])
               ++ (if m then [Sample.role_manager] else []))%list)
  /\ NoDup roles
  /\ (length roles <= 3)%nat
  /\ (forall r, In r roles -> Role.id r = Role.name r).
Proof.
  rewrite fetchUserRoles_derives. intros H. inversion H; subst roles.
  destruct (derived_roles_shape userId accessToken) as (a & s & m & ->).
  split; [now exists a, s, m|].
  destruct a, s, m; cbn;
    (split; [repeat constructor; cbn; intuition discriminate|]);
    (split; [lia|]); intros r Hr;
    repeat (destruct Hr as [<- | Hr]; [reflexivity|]); destruct Hr.
Qed.

(** X2.  A [scope] claim that is not a string gives no role: a number, a
    boolean, [null], an array (of scopes, even) or an object. *)
Theorem fetchUserRoles_non_string_scope (userId : option string)
  (token : JS.ustring) (claim : JS.json) :
  Spec.scope_claim token = Some claim ->
  (forall s, claim <> JS.JStr s) ->
  result (fetchUserRoles overflows userId (Some token)) = inr [].
Proof.
  intros Hc Hn. rewrite fetchUserRoles_derives. unfold Flow.derived_roles.
  unfold Spec.scope_claim in Hc.
  destruct (JS.truthy_string userId); [|reflexivity].
  destruct (Spec.payload_value token) as [v|]; [|reflexivity].
  destruct (overflows v); [reflexivity|].
  destruct (JS.get_prop v "scope") as [e|claim']; [reflexivity|].
  subst claim'. destruct claim; try reflexivity. now destruct (Hn s).
Qed.

Lemma fetchUserRoles_outcome (u : ascii) (us : string) (c : N)
  (cs : JS.ustring) :
  fetchUserRoles overflows (Some (String u us)) (Some (c :: cs))
  = Flow.outcome_of_payload overflows (Spec.payload (c :: cs)).
Proof.
  unfold Flow.outcome_of_payload.
  destruct (Spec.payload (c :: cs)) as [[|a segment]|] eqn:Hp;
    try (apply TokenProcessor.fetchUserRoles_no_payload; now rewrite Hp).
  destruct (JS.JSON_parse (Spec.decoded (a :: segment))) as [v|] eqn:Hj.
  2:{ TokenProcessor.fetch_unfold. unfold Spec.payload, Spec.parts in Hp.
      cbn [JS.truthy_string JS.truthy_units negb orb]. rewrite Hp.
      cbn [JS.truthy_units negb]. unfold Spec.decoded in Hj. rewrite Hj.
      reflexivity. }
  destruct (overflows v) eqn:Ho.
  { now apply TokenProcessor.fetchUserRoles_overflow
      with (segment := a :: segment) (v := v). }
  TokenProcessor.fetch_unfold. unfold Spec.payload, Spec.parts in Hp.
  cbn [JS.truthy_string JS.truthy_units negb orb]. rewrite Hp.
  cbn [JS.truthy_units negb]. unfold Spec.decoded in Hj. rewrite Hj.
  cbn [snd fst app]. rewrite Ho. cbn [snd fst app].
  destruct (JS.get_prop v "scope") as [e|scopes]; [reflexivity|].
  cbn [snd fst app].
  destruct (JS.truthy scopes) eqn:Ht; cbn [negb]; [|reflexivity].
  destruct scopes as [[| | |s| |]|]; try reflexivity.
  cbv zeta. unfold Spec.scope_tokens. rewrite <- conditionals_are_table.
  destruct (JS.includes_literal (JS.split JS.space s) "admin"),
           (JS.includes_literal (JS.split JS.space s) "staff"),
           (JS.includes_literal (JS.split JS.space s) "appid_manage_roles");
    reflexivity.
Qed.

Lemma outcome_of_payload_lines (payload : option JS.ustring) :
  (1 <= length (output (Flow.outcome_of_payload overflows payload)) <= 2)%nat
  /\ (forall args,
         ~ In (Error (Text "Error processing roles:" :: args))
             (output (Flow.outcome_of_payload overflows payload)))
  /\ (forall roles,
         result (Flow.outcome_of_payload overflows payload) = inr roles ->
         (forall args,
             In (Error args)
               (output (Flow.outcome_of_payload overflows payload)) ->
             roles = [])
         /\ (roles <> [] ->
             last (output (Flow.outcome_of_payload overflows payload))
               (Log [])
             = Log [Text "Extracted roles from scopes:"; Roles roles])).
Proof.
  unfold Flow.outcome_of_payload, output, result.
  destruct payload as [[|a segment]|];
    try (cbn; split; [lia|]; split;
         [intros args [H|[]]; discriminate|];
         intros roles H; inversion H; subst; split; congruence).
  destruct (JS.JSON_parse (Spec.decoded (a :: segment))) as [v|].
  2:{ cbn; split; [lia|]; split;
        [intros args [H|[]]; discriminate|];
        intros roles H; inversion H; subst; split; congruence. }
  destruct (overflows v).
  { cbn; split; [lia|]; split;
      [intros args [H|[]]; discriminate|];
      intros roles H; inversion H; subst; split; congruence. }
  destruct (JS.get_prop v "scope") as [e|scopes].
  { cbn; split; [lia|]; split;
      [intros args [H|[H|[]]]; discriminate|];
      intros roles H; inversion H; subst; split; congruence. }
  destruct (JS.truthy scopes).
  - cbn; split; [lia|]; split;
      [intros args [H|[H|[]]]; discriminate|].
    intros roles H; inversion H; subst; split.
    + intros args [H'|[H'|[]]]; discriminate.
    + reflexivity.
  - cbn; split; [lia|]; split;
      [intros args [H|[H|[]]]; discriminate|];
      intros roles H; inversion H; subst; split; congruence.
Qed.

(** X3.  What [fetchUserRoles] writes to the console: one or two lines on
    every call; never the line of the outer [catch], which no input reaches;
    an error line only with an empty result; and whenever it returns roles,
    the last line reports exactly those. *)
Theorem fetchUserRoles_console (userId : option string)
  (accessToken : option JS.ustring) :
  (1 <= length (output (fetchUserRoles overflows userId accessToken)) <= 2)%nat
  /\ (forall args,
         ~ In (Error (Text "Error processing roles:" :: args))
             (output (fetchUserRoles overflows userId accessToken)))
  /\ (forall roles,
         result (fetchUserRoles overflows userId accessToken) = inr roles ->
         (forall args,
             In (Error args)
               (output (fetchUserRoles overflows userId accessToken)) ->
             roles = [])
         /\ (roles <> [] ->
             last (output (fetchUserRoles overflows userId accessToken))
               (Log [])
             = Log [Text "Extracted roles from scopes:"; Roles roles])).
Proof.
  assert (Hmiss :
    JS.truthy_string userId = false \/ JS.truthy_units accessToken = false ->
    (1 <= length (output (fetchUserRoles overflows userId accessToken))
     <= 2)%nat
    /\ (forall args,
           ~ In (Error (Text "Error processing roles:" :: args))
               (output (fetchUserRoles overflows userId accessToken)))
    /\ (forall roles,
           result (fetchUserRoles overflows userId accessToken) = inr roles ->
           (forall args,
               In (Error args)
                 (output (fetchUserRoles overflows userId accessToken)) ->
               roles = [])
           /\ (roles <> [] ->
               last (output (fetchUserRoles overflows userId accessToken))
                 (Log [])
               = Log [Text "Extracted roles from scopes:"; Roles roles]))).
  { intros H. rewrite (TokenProcessor.fetchUserRoles_missing _ _ _ H).
    cbn. split; [lia|]. split; [intros args [E|[]]; discriminate|].
    intros roles E. inversion E; subst. split; congruence. }
  destruct userId as [[|u us]|]; try (apply Hmiss; now left).
  destruct accessToken as [[|c cs]|]; try (apply Hmiss; now right).
  rewrite fetchUserRoles_outcome. apply outcome_of_payload_lines.
Qed.

Lemma fetchUserRoles_by_payload (userId : option string)
  (t t' : JS.ustring) :
  t <> [] -> t' <> [] ->
  Spec.payload t = Spec.payload t' ->
  fetchUserRoles overflows userId (Some t)
  = fetchUserRoles overflows userId (Some t').
Proof.
  intros Ht Ht' Hp.
  destruct userId as [[|u us]|];
    try (rewrite !TokenProcessor.fetchUserRoles_missing by (now left);
         reflexivity).
  destruct t as [|c cs]; [congruence|]. destruct t' as [|c' cs']; [congruence|].
  rewrite !fetchUserRoles_outcome. now rewrite Hp.
Qed.

(** X4.  Header and signature are never looked at: for a payload segment
    [p], the outcome is the same, console lines included, whatever stands
    before the first dot and after the second, and the same again when
    there is no signature at all. *)
Theorem fetchUserRoles_ignores_signature (userId : option string)
  (h h' p sig sig' : JS.ustring) :
  Flow.no_char JS.dot h = true ->
  Flow.no_char JS.dot h' = true ->
  Flow.no_char JS.dot p = true ->
  fetchUserRoles overflows userId
    (Some (h ++ JS.dot :: p ++ JS.dot :: sig)%list)
  = fetchUserRoles overflows userId
      (Some (h' ++ JS.dot :: p ++ JS.dot :: sig')%list)
  /\ fetchUserRoles overflows userId
       (Some (h ++ JS.dot :: p ++ JS.dot :: sig)%list)
     = fetchUserRoles overflows userId (Some (h' ++ JS.dot :: p)%list).
Proof.
  intros Hh Hh' Hp.
  split; apply fetchUserRoles_by_payload;
    try apply app_sep_nonempty.
  - now rewrite !payload_of_three.
  - now rewrite payload_of_three, payload_of_two.
Qed.

(** X5.  Scopes are separated by the space character and by nothing else: a
    [scope] claim without a space is one scope, so, from a payload
    [JSON.stringify] can print, it gives a role only when the whole string
    is [admin], [staff] or [appid_manage_roles]. *)
Theorem fetchUserRoles_single_scope (userId : string)
  (token s : JS.ustring) (v : JS.json) :
  userId <> EmptyString ->
  Spec.payload_value token = Some v ->
  overflows v = false ->
  Spec.scope_claim token = Some (JS.JStr s) ->
  Flow.no_char JS.space s = true ->
  result (fetchUserRoles overflows (Some userId) (Some token))
  = inr (if JS.ustring_eqb s (JS.units "admin") then [Sample.admin]
         else if JS.ustring_eqb s (JS.units "staff") then [Sample.staff]
         else if JS.ustring_eqb s (JS.units "appid_manage_roles")
              then [Sample.role_manager]
         else []).
Proof.
  intros Hu Hv Ho Hc Hs. rewrite fetchUserRoles_derives.
  rewrite (derived_roles_of_claim _ _ _ _ Hu Hv Ho Hc).
  unfold Spec.scope_tokens. rewrite (split_no_sep _ _ Hs).
  unfold Flow.roles_of_scopes, Spec.roleMapping, JS.includes_literal.
  cbn [flat_map fst snd existsb orb].
  rewrite !orb_false_r.
  assert (Sym : forall a b, JS.ustring_eqb a b = JS.ustring_eqb b a).
  { intros a b. destruct (JS.ustring_eqb b a) eqn:E.
    - apply TokenProcessor.ustring_eqb_eq in E. subst.
      now apply TokenProcessor.ustring_eqb_eq.
    - destruct (JS.ustring_eqb a b) eqn:E'; [|reflexivity].
      apply TokenProcessor.ustring_eqb_eq in E'. subst.
      assert (JS.ustring_eqb b b = true)
        by now apply TokenProcessor.ustring_eqb_eq.
      congruence. }
  rewrite (Sym (JS.units "admin") s), (Sym (JS.units "staff") s),
    (Sym (JS.units "appid_manage_roles") s).
  destruct (JS.ustring_eqb s (JS.units "admin")) eqn:Ea.
  { apply TokenProcessor.ustring_eqb_eq in Ea. subst s. reflexivity. }
  destruct (JS.ustring_eqb s (JS.units "staff")) eqn:Es.
  { apply TokenProcessor.ustring_eqb_eq in Es. subst s. reflexivity. }
  destruct (JS.ustring_eqb s (JS.units "appid_manage_roles")); reflexivity.
Qed.

End Runtime.

Lemma fetchUserRoles_roles_shape_witness :
  NoDup [Sample.admin; Sample.staff]
  /\ (length [Sample.admin; Sample.staff] <= 3)%nat.
Proof.
  destruct (fetchUserRoles_roles_shape Sample.overflows (Some "u1")
              (Some Sample.token_shuffled) [Sample.admin; Sample.staff])
    as (_ & Hnd & Hlen & _).
  - vm_compute. reflexivity.
  - split; assumption.
Defined.

(** The payload [{ scope: ['admin', 'staff'] }]. *)
Lemma fetchUserRoles_non_string_scope_witness :
  result (fetchUserRoles Sample.overflows (Some "u1")
            (Some (JS.units "h.eyJzY29wZSI6WyJhZG1pbiIsInN0YWZmIl19.s")))
  = inr [].
Proof.
  apply (fetchUserRoles_non_string_scope Sample.overflows (Some "u1")
           (JS.units "h.eyJzY29wZSI6WyJhZG1pbiIsInN0YWZmIl19.s")
           (JS.JArr [JS.JStr (JS.units "admin");
                     JS.JStr (JS.units "staff")])).
  - vm_compute. reflexivity.
  - discriminate.
Defined.

Lemma fetchUserRoles_console_witness :
  last (output (fetchUserRoles Sample.overflows (Some "u1")
                  (Some Sample.token_admin_staff)))
    (Log [])
  = Log [Text "Extracted roles from scopes:";
         Roles [Sample.admin; Sample.staff]].
Proof.
  apply (proj2 (proj2 (fetchUserRoles_console Sample.overflows (Some "u1")
                         (Some Sample.token_admin_staff)))
           [Sample.admin; Sample.staff]).
  - vm_compute. reflexivity.
  - discriminate.
Defined.

(** The payload [{ scope: 'admin staff' }] under two headers and
    signatures, and unsigned. *)
Lemma fetchUserRoles_ignores_signature_witness :
  fetchUserRoles Sample.overflows (Some "u1") (Some Sample.token_admin_staff)
  = fetchUserRoles Sample.overflows (Some "u1")
      (Some (JS.units
               "forged.eyJzY29wZSI6ImFkbWluIHN0YWZmIn0.no.signature"))
  /\ fetchUserRoles Sample.overflows (Some "u1")
       (Some Sample.token_admin_staff)
     = fetchUserRoles Sample.overflows (Some "u1")
         (Some (JS.units "forged.eyJzY29wZSI6ImFkbWluIHN0YWZmIn0")).
Proof.
  apply (fetchUserRoles_ignores_signature Sample.overflows (Some "u1")
           (JS.units "h") (JS.units "forged")
           (JS.units "eyJzY29wZSI6ImFkbWluIHN0YWZmIn0") (JS.units "s")
           (JS.units "no.signature"));
    reflexivity.
Defined.

(** The payloads [{ scope: 'admin,staff' }] and [{ scope: 'admin' }]. *)
Lemma fetchUserRoles_single_scope_witness :
  result (fetchUserRoles Sample.overflows (Some "u1")
            (Some (JS.units "h.eyJzY29wZSI6ImFkbWluLHN0YWZmIn0.s")))
  = inr []
  /\ result (fetchUserRoles Sample.overflows (Some "u1")
               (Some Sample.token_two_parts))
     = inr [Sample.admin].
Proof.
  split.
  - apply (fetchUserRoles_single_scope Sample.overflows "u1"
             (JS.units "h.eyJzY29wZSI6ImFkbWluLHN0YWZmIn0.s")
             (JS.units "admin,staff")
             (JS.JObj [(JS.units "scope",
                        JS.JStr (JS.units "admin,staff"))]));
      [discriminate | vm_compute; reflexivity | reflexivity
      | vm_compute; reflexivity | reflexivity].
  - apply (fetchUserRoles_single_scope Sample.overflows "u1"
             Sample.token_two_parts (JS.units "admin")
             (JS.JObj [(JS.units "scope", JS.JStr (JS.units "admin"))]));
      [discriminate | vm_compute; reflexivity | reflexivity
      | vm_compute; reflexivity | reflexivity].
Defined.

End TokenFacts.
(** ** Sign-in: [profile], then [jwt], then [session] *)
Module SignIn.
Import Console NextAuthConfig.

Lemma spaced_nonempty (a b : string) : a ++ " " ++ b <> EmptyString.
Proof. destruct a; discriminate. Qed.

Lemma session_of_token (s : Session.t) (token : JWT.t) (u : User.t) :
  JWT.user token = Some u ->
  session s token
  = ret {| Session.user := Some u;
           Session.expires := Session.expires s;
           Session.accessToken := JWT.accessToken token |}.
Proof. intros H. unfold session. now rewrite H. Qed.

Section Runtime.

Variable overflows : JS.json -> bool.

Lemma fetchUserRoles_pair (userId : option string)
  (accessToken : option JS.ustring) :
  fetchUserRoles overflows userId accessToken
  = (output (fetchUserRoles overflows userId accessToken),
     inr (Flow.derived_roles overflows userId accessToken)).
Proof.
  pose proof (TokenFacts.fetchUserRoles_derives overflows userId accessToken)
    as H.
  unfold result, output in *.
  destruct (fetchUserRoles overflows userId accessToken) as [out r].
  simpl in *. now subst r.
Qed.

Lemma profile_record (p : Profile.t) (t : TokenInfo.t) :
  result (profile overflows p t)
  = inr {| User.id := Profile.sub p;
           User.name :=
             Some (or_string (Profile.name p)
                     (JS.template (Profile.given_name p) ++ " "
                      ++ JS.template (Profile.family_name p)));
           User.email := Profile.email p;
           User.image := None;
           User.roles :=
             Some (Flow.derived_roles overflows (Profile.sub p)
                     (TokenInfo.access_token t));
           User.email_verified := Profile.email_verified p;
           User.identities :=
             Some (match Profile.identities p with
                   | Some l => l
                   | None => []
                   end) |}.
Proof.
  unfold profile. rewrite fetchUserRoles_pair. reflexivity.
Qed.

(** X6.  The roles of the record [profile] builds come from the access
    token alone: when the profile has a subject and [JSON.stringify] can
    print the payload of the token, they are the roles of the scopes of its
    [scope] claim; they are none for a profile without a subject and for a
    payload [JSON.stringify] fails on; the roles the provider lists in the
    raw profile are not used. *)
Theorem profile_roles_from_token (p : Profile.t) (t : TokenInfo.t) :
  exists user,
    result (profile overflows p t) = inr user
    /\ User.roles user
       = Some (Flow.derived_roles overflows (Profile.sub p)
                 (TokenInfo.access_token t))
    /\ (Profile.sub p = None -> User.roles user = Some [])
    /\ (forall sub token s v,
           Profile.sub p = Some sub -> sub <> EmptyString ->
           TokenInfo.access_token t = Some token ->
           Spec.payload_value token = Some v ->
           overflows v = false ->
           Spec.scope_claim token = Some (JS.JStr s) ->
           User.roles user
           = Some (Flow.roles_of_scopes (Spec.scope_tokens s)))
    /\ (forall token v,
           TokenInfo.access_token t = Some token ->
           Spec.payload_value token = Some v ->
           overflows v = true ->
           User.roles user = Some []).
Proof.
  eexists. split; [apply profile_record|]. cbn [User.roles].
  split; [reflexivity|]. split; [|split].
  - intros ->. reflexivity.
  - intros sub token s v -> Hne -> Hv Ho Hc.
    now rewrite (TokenFacts.derived_roles_of_claim overflows _ _ _ _
                   Hne Hv Ho Hc).
  - intros token v -> Hv Ho. unfold Flow.derived_roles.
    rewrite Hv, Ho. now destruct (JS.truthy_string (Profile.sub p)).
Qed.

(** X7.  Every record [profile] returns is complete where the pages read
    it: the name is a string and not the empty one, even for a profile with
    no name at all, and the roles and the identities are lists. *)
Theorem profile_record_complete (p : Profile.t) (t : TokenInfo.t) :
  exists user name roles identities,
    result (profile overflows p t) = inr user
    /\ User.name user = Some name /\ name <> EmptyString
    /\ User.roles user = Some roles
    /\ User.identities user = Some identities
    /\ (Profile.name p = None -> Profile.given_name p = None ->
        Profile.family_name p = None -> name = "undefined undefined").
Proof.
  do 4 eexists. split; [apply profile_record|].
  cbn [User.name User.roles User.identities].
  split; [reflexivity|]. split.
  - unfold or_string. destruct (Profile.name p) as [[|c r]|];
      try apply spaced_nonempty. discriminate.
  - split; [reflexivity|]. split; [reflexivity|].
    intros -> -> ->. reflexivity.
Qed.

Lemma jwt_with_user (token : JWT.t) (account : Account.t)
  (p : Profile.t) (user : User.t) :
  result (jwt overflows token (Some account) (Some p) (Some user))
  = inr {| JWT.user :=
             Some {| User.id := Profile.sub p;
                     User.name :=
                       match Profile.name p with
                       | Some n => Some n
                       | None => User.name user
                       end;
                     User.email :=
                       match Profile.email p with
                       | Some e => Some e
                       | None => User.email user
                       end;
                     User.image := User.image user;
                     User.roles :=
                       Some (Flow.derived_roles overflows (Profile.sub p)
                               (Account.access_token account));
                     User.email_verified := User.email_verified user;
                     User.identities := User.identities user |};
           JWT.accessToken := Account.access_token account;
           JWT.claims := JWT.claims token |}.
Proof.
  unfold jwt. rewrite fetchUserRoles_pair.
  unfold bind, coalesce_user, console_log, ret, result.
  destruct (Profile.email p), (Profile.name p); reflexivity.
Qed.

(** X8.  [jwt] can fail in one way only: with fresh account and profile
    data, no user object, and a profile that lacks its email or its name,
    reading the missing user's field throws a [TypeError]; with a user
    object, or without fresh data, it always returns a token. *)
Theorem jwt_throws_only_without_user (token : JWT.t)
  (account : option Account.t) (p : option Profile.t)
  (user : option User.t) :
  (forall e,
      result (jwt overflows token account p user) = inl e ->
      e = JS.TypeError)
  /\ (result (jwt overflows token account p user) = inl JS.TypeError
      <-> exists a q,
           account = Some a /\ p = Some q /\ user = None
           /\ (Profile.email q = None \/ Profile.name q = None)).
Proof.
  destruct account as [a|], p as [q|];
    try (split; [intros e H; discriminate|];
         split; [intros H; discriminate|];
         intros (a' & q' & H1 & H2 & _); discriminate).
  destruct user as [u|].
  { rewrite jwt_with_user. split; [intros e H; discriminate|].
    split; [intros H; discriminate|].
    intros (a' & q' & _ & _ & H & _); discriminate. }
  unfold jwt. rewrite fetchUserRoles_pair.
  unfold bind, coalesce_user, console_log, ret, throw, result.
  destruct (Profile.email q) eqn:He, (Profile.name q) eqn:Hn; cbn.
  - split; [intros e H; discriminate|]. split; [intros H; discriminate|].
    intros (a' & q' & _ & Hq & _ & [H|H]); inversion Hq; subst q';
      congruence.
  - split; [intros e H; now inversion H|]. split; [|reflexivity].
    intros _. exists a, q. auto.
  - split; [intros e H; now inversion H|]. split; [|reflexivity].
    intros _. exists a, q. auto.
  - split; [intros e H; now inversion H|]. split; [|reflexivity].
    intros _. exists a, q. auto.
Qed.

(** X9.  On sign-in NextAuth hands to [jwt] the record [profile] built from
    the same raw profile and access token.  The user [jwt] stores is then
    that very record, except when the raw profile's name is the empty
    string: [profile] replaces it by the given and family names, [jwt] keeps
    it empty. *)
Theorem jwt_stores_profile_record (token : JWT.t) (account : Account.t)
  (p : Profile.t) (t : TokenInfo.t) (user : User.t) :
  result (profile overflows p t) = inr user ->
  Account.access_token account = TokenInfo.access_token t ->
  exists token',
    result (jwt overflows token (Some account) (Some p) (Some user))
    = inr token'
    /\ JWT.accessToken token' = TokenInfo.access_token t
    /\ JWT.claims token' = JWT.claims token
    /\ (Profile.name p <> Some EmptyString -> JWT.user token' = Some user)
    /\ (Profile.name p = Some EmptyString ->
        exists stored,
          JWT.user token' = Some stored
          /\ User.name stored = Some EmptyString
          /\ User.name user
             = Some (JS.template (Profile.given_name p) ++ " "
                     ++ JS.template (Profile.family_name p))).
Proof.
  intros Hp Ha. rewrite profile_record in Hp. inversion Hp; subst user.
  clear Hp. eexists. split; [apply jwt_with_user|].
  cbn [JWT.accessToken JWT.claims JWT.user User.name User.email User.image
       User.email_verified User.identities].
  split; [exact Ha|]. split; [reflexivity|]. rewrite Ha. split.
  - intros Hn. do 2 f_equal.
    + destruct (Profile.name p) as [[|c r]|]; [congruence | |]; reflexivity.
    + destruct (Profile.email p); reflexivity.
  - intros ->. eexists. split; [reflexivity|]. split; reflexivity.
Qed.

Lemma jwt_fresh_user (token token' : JWT.t) (account : Account.t)
  (p : Profile.t) (user : option User.t) :
  result (jwt overflows token (Some account) (Some p) user) = inr token' ->
  exists u,
    JWT.user token' = Some u
    /\ User.roles u
       = Some (Flow.derived_roles overflows (Profile.sub p)
                 (Account.access_token account))
    /\ JWT.accessToken token' = Account.access_token account.
Proof.
  unfold jwt. rewrite fetchUserRoles_pair.
  unfold bind, coalesce_user, console_log, ret, throw, result.
  destruct (Profile.email p), (Profile.name p), user; cbn;
    intros H; try discriminate; inversion H; subst token';
    eexists; repeat split.
Qed.

(** X10.  After a sign-in the session a page reads carries the access token
    of the account and, for roles, exactly those derived from that token
    (none, when [JSON.stringify] fails on its payload): [session] hands on
    what [jwt] stored, whatever session came in. *)
Theorem session_after_sign_in (token token' : JWT.t) (account : Account.t)
  (p : Profile.t) (user : option User.t) (s : Session.t) :
  result (jwt overflows token (Some account) (Some p) user) = inr token' ->
  exists s',
    session s token' = ret s'
    /\ Session.accessToken s' = Account.access_token account
    /\ Spec.session_roles (Some s')
       = Some (Flow.derived_roles overflows (Profile.sub p)
                 (Account.access_token account))
    /\ Session.expires s' = Session.expires s
    /\ (forall sub tok sc v,
           Profile.sub p = Some sub -> sub <> EmptyString ->
           Account.access_token account = Some tok ->
           Spec.payload_value tok = Some v ->
           Spec.scope_claim tok = Some (JS.JStr sc) ->
           Spec.session_roles (Some s')
           = Some (if overflows v then []
                   else Flow.roles_of_scopes (Spec.scope_tokens sc))).
Proof.
  intros Hj. destruct (jwt_fresh_user _ _ _ _ _ Hj) as (u & Hu & Hr & Ha).
  rewrite (session_of_token s token' u Hu). eexists.
  split; [reflexivity|]. cbn. rewrite Hr, Ha.
  split; [reflexivity|]. split; [reflexivity|]. split; [reflexivity|].
  intros sub tok sc v -> Hne -> Hv Hc.
  destruct (overflows v) eqn:Ho.
  - unfold Flow.derived_roles. rewrite Hv, Ho.
    now destruct (JS.truthy_string (Some sub)).
  - now rewrite (TokenFacts.derived_roles_of_claim overflows _ _ _ _
                   Hne Hv Ho Hc).
Qed.

End Runtime.

(** A raw profile that lists the role [admin] itself, with a token whose
    scopes are [staff] and others: the record has [staff] only. *)
Lemma profile_roles_from_token_witness :
  exists user,
    result (profile Sample.overflows
              {| Profile.sub := Some "u1";
                 Profile.name := Some "Ann";
                 Profile.email := None;
                 Profile.email_verified := None;
                 Profile.given_name := None;
                 Profile.family_name := None;
                 Profile.roles := Some [Sample.admin];
                 Profile.identities := None |}
              {| TokenInfo.access_token :=
                   Some (JS.units "h.eyJzY29wZSI6InN0YWZmIG9wZW5pZCJ9.s");
                 TokenInfo.id_token := None |}) = inr user
    /\ User.roles user = Some [Sample.staff].
Proof.
  match goal with
  | |- exists user, result (profile _ ?p ?t) = _ /\ _ =>
      destruct (profile_roles_from_token Sample.overflows p t)
        as (user & Hr & _ & _ & Hs & _)
  end.
  exists user. split; [exact Hr|].
  apply (Hs "u1" (JS.units "h.eyJzY29wZSI6InN0YWZmIG9wZW5pZCJ9.s")
           (JS.units "staff openid")
           (JS.JObj [(JS.units "scope",
                      JS.JStr (JS.units "staff openid"))]));
    [reflexivity | discriminate | reflexivity | vm_compute; reflexivity
    | reflexivity | vm_compute; reflexivity].
Defined.

Lemma profile_record_complete_witness :
  exists user,
    result (profile Sample.overflows
              (Profile.mk (Some "u1") None None None None None None None)
              Sample.tokens) = inr user
    /\ User.name user = Some "undefined undefined".
Proof.
  destruct (profile_record_complete Sample.overflows
              (Profile.mk (Some "u1") None None None None None None None)
              Sample.tokens)
    as (user & name & roles & ids & Hr & Hn & _ & _ & _ & Hu).
  exists user. split; [exact Hr|].
  rewrite Hn. f_equal. apply Hu; reflexivity.
Defined.

Lemma jwt_throws_only_without_user_witness :
  result (jwt Sample.overflows Sample.jwt_bare (Some Sample.account)
            (Some Sample.profile_AB) None) = inl JS.TypeError.
Proof.
  apply (proj2 (jwt_throws_only_without_user Sample.overflows
                  Sample.jwt_bare
                  (Some Sample.account) (Some Sample.profile_AB) None)).
  exists Sample.account, Sample.profile_AB.
  split; [reflexivity|]. split; [reflexivity|]. split; [reflexivity|].
  left. reflexivity.
Defined.

Lemma jwt_stores_profile_record_witness :
  exists user token',
    result (profile Sample.overflows Sample.profile_AB Sample.tokens) = inr user
    /\ result (jwt Sample.overflows Sample.jwt_bare (Some Sample.account)
                 (Some Sample.profile_AB) (Some user)) = inr token'
    /\ JWT.user token' = Some user.
Proof.
  eexists.
  destruct (jwt_stores_profile_record Sample.overflows
              Sample.jwt_bare Sample.account
              Sample.profile_AB Sample.tokens _ eq_refl eq_refl)
    as (token' & Hj & _ & _ & Hsame & _).
  exists token'. split; [reflexivity|]. split; [exact Hj|].
  apply Hsame. discriminate.
Defined.

Lemma session_after_sign_in_witness :
  exists token' s',
    result (jwt Sample.overflows Sample.jwt_bare (Some Sample.account)
              (Some Sample.profile_AB) (Some Sample.user_staff)) = inr token'
    /\ session Sample.session_default token' = ret s'
    /\ Spec.session_roles (Some s') = Some [Sample.admin; Sample.staff].
Proof.
  eexists.
  destruct (session_after_sign_in Sample.overflows
              Sample.jwt_bare _ Sample.account
              Sample.profile_AB (Some Sample.user_staff)
              Sample.session_default eq_refl)
    as (s' & Hs & _ & Hr & _).
  exists s'. split; [reflexivity|]. split; [exact Hs|]. exact Hr.
Defined.

End SignIn.

(** ** More on [withAuth] and the server-side handlers *)
Module GuardFacts.
Import Guard.

Lemma includes_names (roles : list Role.t) (roleName : string) :
  JS.includes (map Role.name roles) roleName
  = existsb (fun role => String.eqb (Role.name role) roleName) roles.
Proof.
  unfold JS.includes. induction roles as [|r roles IH]; [reflexivity|].
  cbn [map existsb]. now rewrite IH, String.eqb_sym.
Qed.

Lemma includes_userRoles (session : Session.t) (roleName : string) :
  JS.includes (userRoles session) roleName
  = Layout.truthy (Layout.hasRole (Some session) roleName).
Proof.
  unfold userRoles, Layout.hasRole.
  destruct (Session.user session) as [u|]; [|reflexivity].
  destruct (User.roles u) as [roles|]; [|reflexivity].
  apply includes_names.
Qed.

(** X11.  Guard and pages test roles alike: the test [withAuth] makes on a
    session passes exactly when, for one of the required names, the
    expression the pages use ([session?.user?.roles?.some(...)]) is
    truthy. *)
Theorem guard_agrees_with_pages (session : Session.t)
  (requiredRoles : list string) :
  hasRequiredRole session requiredRoles
  = existsb
      (fun roleName =>
         Layout.truthy (Layout.hasRole (Some session) roleName))
      requiredRoles.
Proof.
  unfold hasRequiredRole. induction requiredRoles as [|r rs IH];
    [reflexivity|].
  cbn [existsb]. now rewrite IH, includes_userRoles.
Qed.

Section Facts.

Variables World Context Props Exn : Type.
Variable getSession : Context -> World -> option Session.t * World.

(** [withAuth] by cases on what [getSession] resolves to. *)
Lemma withAuth_cases (gssp : GetServerSideProps World Context Props Exn)
  (requiredRoles : option (list string)) (context : Context)
  (world : World) :
  withAuth getSession gssp requiredRoles context world
  = match getSession context world with
    | (None, world') => (inr (redirect "/api/auth/signin" false), world')
    | (Some session, world') =>
        if Flow.role_check requiredRoles session
        then gssp context world'
        else (inr (redirect "/unauthorized" false), world')
    end.
Proof.
  unfold withAuth, Flow.role_check.
  destruct (getSession context world) as [[session|] world'];
    [|reflexivity].
  destruct requiredRoles as [[|r rs]|]; try reflexivity.
  destruct (hasRequiredRole session (r :: rs)); reflexivity.
Qed.

(** X12.  Asking for more roles never locks out a user who passed: when a
    session passes the test for a list of required roles, the wrapped
    loader runs for every list that contains it, and so it does for a
    session that has the names of its roles and more. *)
Theorem withAuth_monotone
  (gssp : GetServerSideProps World Context Props Exn)
  (required required' : list string) (context : Context) (world world' : World)
  (session session' : Session.t) :
  getSession context world = (Some session', world') ->
  hasRequiredRole session required = true ->
  (forall role, In role required -> In role required') ->
  (forall name, In name (userRoles session) -> In name (userRoles session')) ->
  withAuth getSession gssp (Some required') context world
  = gssp context world'.
Proof.
  intros Hs Hpass Hreq Hnames. rewrite withAuth_cases, Hs.
  apply RouteGuard.hasRequiredRole_true in Hpass.
  destruct Hpass as (role & Hin & Hu).
  assert (Hpass' : hasRequiredRole session' required' = true).
  { apply RouteGuard.hasRequiredRole_true. exists role. auto. }
  unfold Flow.role_check. destruct required' as [|r rs];
    [reflexivity|]. now rewrite Hpass'.
Qed.

(** [getSession] is stable when asking again changes nothing: the second
    call resolves to the same session and leaves the world as the first
    call left it. *)
Hypothesis getSession_stable :
  forall context world session world',
    getSession context world = (session, world') ->
    getSession context world' = (session, world').

(** X13.  Wrapping twice: with a [getSession] that, asked again, resolves
    to the same session and leaves the world as it is, the loader under
    [withAuth(withAuth(loader, r1), r2)] runs exactly when the session
    passes both role tests; the order of the two wrappers does not matter,
    and wrapping twice with the same roles is wrapping once. *)
Theorem withAuth_nested
  (gssp : GetServerSideProps World Context Props Exn)
  (r1 r2 : option (list string)) (context : Context) (world : World) :
  withAuth getSession (withAuth getSession gssp r1) r2 context world
  = match getSession context world with
    | (None, world') => (inr (redirect "/api/auth/signin" false), world')
    | (Some session, world') =>
        if Flow.role_check r2 session && Flow.role_check r1 session
        then gssp context world'
        else (inr (redirect "/unauthorized" false), world')
    end
  /\ withAuth getSession (withAuth getSession gssp r1) r2 context world
     = withAuth getSession (withAuth getSession gssp r2) r1 context world
  /\ withAuth getSession (withAuth getSession gssp r1) r1 context world
     = withAuth getSession gssp r1 context world.
Proof.
  assert (Hnest : forall a b,
    withAuth getSession (withAuth getSession gssp a) b context world
    = match getSession context world with
      | (None, world') => (inr (redirect "/api/auth/signin" false), world')
      | (Some session, world') =>
          if Flow.role_check b session && Flow.role_check a session
          then gssp context world'
          else (inr (redirect "/unauthorized" false), world')
      end).
  { intros a b. rewrite withAuth_cases.
    destruct (getSession context world) as [[session|] world'] eqn:Hs;
      [|reflexivity].
    destruct (Flow.role_check b session); [|reflexivity].
    rewrite withAuth_cases, (getSession_stable _ _ _ _ Hs). reflexivity. }
  split; [apply Hnest|]. split.
  - rewrite !Hnest.
    destruct (getSession context world) as [[session|] world'];
      [|reflexivity].
    now rewrite andb_comm.
  - rewrite Hnest, withAuth_cases.
    destruct (getSession context world) as [[session|] world'];
      [|reflexivity].
    now rewrite andb_diag.
Qed.

End Facts.

(** X14.  The hand-written check of the protected page is the check of
    [withAuth]: with a stable [getSession], putting the page's
    [getServerSideProps] under [withAuth] without roles changes nothing, and
    under [withAuth] with roles it adds the role test and no more. *)
Theorem Protected_is_guarded (World Context Exn : Type)
  (getSession : Context -> World -> option Session.t * World)
  (requiredRoles : option (list string)) (context : Context)
  (world : World) :
  (forall context world session world',
      getSession context world = (session, world') ->
      getSession context world' = (session, world')) ->
  withAuth getSession
    (ServerProps.Protected_getServerSideProps (Exn := Exn) getSession)
    None context world
  = ServerProps.Protected_getServerSideProps getSession context world
  /\ withAuth getSession
       (ServerProps.Protected_getServerSideProps (Exn := Exn) getSession)
       requiredRoles context world
     = match getSession context world with
       | (None, world') =>
           (inr (redirect "/api/auth/signin" false), world')
       | (Some session, world') =>
           if Flow.role_check requiredRoles session
           then (inr (props (Session.user session)), world')
           else (inr (redirect "/unauthorized" false), world')
       end.
Proof.
  intros getSession_stable.
  assert (H : forall r,
    withAuth getSession
      (ServerProps.Protected_getServerSideProps (Exn := Exn) getSession)
      r context world
    = match getSession context world with
      | (None, world') =>
          (inr (redirect "/api/auth/signin" false), world')
      | (Some session, world') =>
          if Flow.role_check r session
          then (inr (props (Session.user session)), world')
          else (inr (redirect "/unauthorized" false), world')
      end).
  { intros r. rewrite withAuth_cases.
    destruct (getSession context world) as [[session|] world'] eqn:Hs;
      [|reflexivity].
    destruct (Flow.role_check r session); [|reflexivity].
    unfold ServerProps.Protected_getServerSideProps.
    now rewrite (getSession_stable _ _ _ _ Hs). }
  split; [|apply H].
  rewrite H. unfold ServerProps.Protected_getServerSideProps.
  destruct (getSession context world) as [[session|] world']; reflexivity.
Qed.

Lemma readSession_stable :
  forall context world session world',
    SampleHandlers.readSession context world = (session, world') ->
    SampleHandlers.readSession context world' = (session, world').
Proof.
  unfold SampleHandlers.readSession. intros context world session world' H.
  inversion H; subst. reflexivity.
Qed.

(** A [staff] session passes [admin, staff]; it passes as well when
    [role_manager] is added to the list. *)
Lemma withAuth_monotone_witness :
  withAuth Sample.getSession Sample.loader
    (Some ["role_manager"; "admin"; "staff"]) (Some Sample.session_staff) []
  = (inr (props "page"), ["getSession"; "loader"]).
Proof.
  change (inr (props "page"), ["getSession"; "loader"])
    with (Sample.loader (Some Sample.session_staff) ["getSession"]).
  apply (withAuth_monotone _ _ _ _ Sample.getSession Sample.loader
           ["admin"; "staff"] ["role_manager"; "admin"; "staff"]
           (Some Sample.session_staff) [] ["getSession"]
           Sample.session_staff Sample.session_staff).
  - reflexivity.
  - reflexivity.
  - simpl. intuition.
  - auto.
Defined.

(** A [staff] session under [admin, staff] and then under [admin]: the
    loader does not run. *)
Lemma withAuth_nested_witness :
  withAuth SampleHandlers.readSession
    (withAuth SampleHandlers.readSession Sample.loader
       (Some ["admin"; "staff"]))
    (Some ["admin"]) (Some Sample.session_staff) []
  = (inr (redirect "/unauthorized" false), [])
  /\ withAuth SampleHandlers.readSession
       (withAuth SampleHandlers.readSession Sample.loader
          (Some ["admin"; "staff"]))
       (Some ["staff"]) (Some Sample.session_staff) []
     = (inr (props "page"), ["loader"]).
Proof.
  split.
  - rewrite (proj1 (withAuth_nested _ _ _ _ SampleHandlers.readSession
                      readSession_stable Sample.loader
                      (Some ["admin"; "staff"]) (Some ["admin"])
                      (Some Sample.session_staff) [])).
    reflexivity.
  - rewrite (proj1 (withAuth_nested _ _ _ _ SampleHandlers.readSession
                      readSession_stable Sample.loader
                      (Some ["admin"; "staff"]) (Some ["staff"])
                      (Some Sample.session_staff) [])).
    reflexivity.
Defined.

(** Without the second half of stability the last part of X13 is lost:
    [Sample.getSession] resolves to the same session each time it is asked
    but records the call, and wrapping twice records it twice. *)
Example withAuth_nested_records_twice :
  withAuth Sample.getSession
    (withAuth Sample.getSession Sample.loader (Some ["staff"]))
    (Some ["staff"]) (Some Sample.session_staff) []
  = (inr (props "page"), ["getSession"; "getSession"; "loader"])
  /\ withAuth Sample.getSession Sample.loader (Some ["staff"])
       (Some Sample.session_staff) []
     = (inr (props "page"), ["getSession"; "loader"]).
Proof. split; reflexivity. Qed.

Lemma Protected_is_guarded_witness :
  withAuth SampleHandlers.readSession
    (ServerProps.Protected_getServerSideProps (Exn := unit)
       SampleHandlers.readSession)
    (Some ["admin"]) (Some Sample.session_staff) []
  = (inr (redirect "/unauthorized" false), [])
  /\ withAuth SampleHandlers.readSession
       (ServerProps.Protected_getServerSideProps (Exn := unit)
          SampleHandlers.readSession)
       None (Some Sample.session_staff) []
     = (inr (props (Some Sample.user_staff)), []).
Proof.
  split.
  - rewrite (proj2 (Protected_is_guarded _ _ unit
                      SampleHandlers.readSession
                      (Some ["admin"]) (Some Sample.session_staff) []
                      readSession_stable)).
    reflexivity.
  - rewrite (proj1 (Protected_is_guarded _ _ unit
                      SampleHandlers.readSession
                      None (Some Sample.session_staff) []
                      readSession_stable)).
    reflexivity.
Defined.

End GuardFacts.

(** ** From the scopes of the token to what the user may see *)
Module EndToEnd.
Import Console NextAuthConfig.


Lemma roles_of_scopes_named (scopeArray : list JS.ustring)
  (roleName : string) :
  existsb (fun role => String.eqb (Role.name role) roleName)
    (Flow.roles_of_scopes scopeArray)
  = (JS.includes_literal scopeArray "admin" && String.eqb "admin" roleName)
    || (JS.includes_literal scopeArray "staff" && String.eqb "staff" roleName)
    || (JS.includes_literal scopeArray "appid_manage_roles"
        && String.eqb "role_manager" roleName).
Proof.
  rewrite <- TokenFacts.conditionals_are_table.
  unfold Sample.admin, Sample.staff, Sample.role_manager.
  destruct (JS.includes_literal scopeArray "admin"),
           (JS.includes_literal scopeArray "staff"),
           (JS.includes_literal scopeArray "appid_manage_roles");
    cbn [existsb app Role.name andb orb];
    destruct (String.eqb "admin" roleName),
             (String.eqb "staff" roleName),
             (String.eqb "role_manager" roleName); reflexivity.
Qed.

(** The session of a signed-in user whose token carries a string [scope]
    claim. *)
Lemma signed_in_session (overflows : JS.json -> bool)
  (token token' : JWT.t) (account : Account.t)
  (p : Profile.t) (user : option User.t) (s0 s' : Session.t)
  (sub : string) (tok sc : JS.ustring) (v : JS.json) :
  result (jwt overflows token (Some account) (Some p) user) = inr token' ->
  session s0 token' = ret s' ->
  Profile.sub p = Some sub -> sub <> EmptyString ->
  Account.access_token account = Some tok ->
  Spec.payload_value tok = Some v ->
  overflows v = false ->
  Spec.scope_claim tok = Some (JS.JStr sc) ->
  exists u,
    Session.user s' = Some u
    /\ User.roles u = Some (Flow.roles_of_scopes (Spec.scope_tokens sc))
    /\ Session.accessToken s' = Some tok.
Proof.
  intros Hj Hs Hsub Hne Htok Hv Ho Hc.
  destruct (SignIn.jwt_fresh_user _ _ _ _ _ _ Hj) as (u & Hu & Hr & Ha).
  rewrite (SignIn.session_of_token s0 token' u Hu) in Hs.
  inversion Hs; subst s'. exists u. cbn.
  split; [reflexivity|]. split; [|now rewrite Ha].
  rewrite Hr, Hsub, Htok.
  now rewrite (TokenFacts.derived_roles_of_claim overflows _ _ _ _
                 Hne Hv Ho Hc).
Qed.



End EndToEnd.

(** ** The user-info page's [getServerSideProps] *)
Module UserInfoFacts.
Import ServerProps.

Section Facts.

Variables World Context Exn Data : Type.
Variable APP_ID_ISSUER : option string.
Variable importGetSession :
  Context -> World -> (Exn + option Session.t) * World.
Variable axios_get : string -> JS.ustring -> World -> (Exn + Data) * World.
Variable console_error : string -> Exn -> World -> World.

(** X16.  The handler never rejects: whatever [getSession] and the
    user-info request do, it resolves to the sign-in redirect, to the data
    received, or, after any failure, to props without data that carry the
    fixed message, the error having been written to the console. *)
Theorem UserInfo_never_rejects (context : Context) (world : World) :
  exists r world',
    UserInfo_getServerSideProps APP_ID_ISSUER importGetSession axios_get
      console_error context world
    = (inr r, world')
    /\ (r = Guard.redirect "/api/auth/signin" false
        \/ (exists data, r = Guard.props (mkUserInfoProps (Some data) None))
        \/ (r = Guard.props
                  (mkUserInfoProps None
                     (Some "Failed to fetch user information"))
            /\ exists e world0,
                world' = console_error "Error fetching userinfo:" e world0)).
Proof.
  unfold UserInfo_getServerSideProps, UserInfo_catch.
  destruct (importGetSession context world) as [[e|session] w1].
  { do 2 eexists. split; [reflexivity|]. right. right. eauto. }
  destruct (negb (JS.truthy_units
                    match session with
                    | Some s => Session.accessToken s
                    | None => JS.undefined
                    end)).
  { do 2 eexists. split; [reflexivity|]. now left. }
  destruct (axios_get _ _ w1) as [[e|data] w2].
  - do 2 eexists. split; [reflexivity|]. right. right. eauto.
  - do 2 eexists. split; [reflexivity|]. right. left. eauto.
Qed.

(** X17.  The user-info endpoint is asked only on behalf of a session with
    an access token: without a session, or with a session whose access
    token is missing or empty, the handler redirects to the sign-in entry
    point and makes no request; with one, it makes exactly one request, to
    the issuer's [/userinfo], with that token as bearer. *)
Theorem UserInfo_request (context : Context) (world world' : World)
  (session : option Session.t) :
  importGetSession context world = (inr session, world') ->
  (match session with
   | Some s => JS.truthy_units (Session.accessToken s) = false
   | None => True
   end ->
   UserInfo_getServerSideProps APP_ID_ISSUER importGetSession axios_get
      console_error context world
   = (inr (Guard.redirect "/api/auth/signin" false), world'))
  /\
  (forall s token,
      session = Some s ->
      Session.accessToken s = Some token -> token <> [] ->
      UserInfo_getServerSideProps APP_ID_ISSUER importGetSession axios_get
      console_error context world
      = match axios_get (JS.template APP_ID_ISSUER ++ "/userinfo")
                (JS.units "Bearer " ++ token)%list world' with
        | (inr data, world'') =>
            (inr (Guard.props (mkUserInfoProps (Some data) None)), world'')
        | (inl e, world'') =>
            (inr (Guard.props
                    (mkUserInfoProps None
                       (Some "Failed to fetch user information"))),
             console_error "Error fetching userinfo:" e world'')
        end).
Proof.
  intros Hs. unfold UserInfo_getServerSideProps, UserInfo_catch.
  rewrite Hs. split.
  - destruct session as [s|]; [intros ->|intros _]; reflexivity.
  - intros s token -> Ht Hne. rewrite Ht.
    destruct token as [|c r]; [congruence|]. cbn [JS.truthy_units negb].
    cbn [JS.template_units].
    destruct (axios_get _ _ world') as [[e|data] w2]; reflexivity.
Qed.

End Facts.

(** A signed-in session with an access token, against an endpoint that
    echoes the header; a session without an access token. *)
Lemma UserInfo_request_witness :
  UserInfo_getServerSideProps (Some "https://issuer")
    SampleHandlers.importGetSession SampleHandlers.axios_get
    SampleHandlers.console_error (Some SampleHandlers.session_admin) []
  = (inr (Guard.props
            (mkUserInfoProps
               (Some (JS.units "Bearer x.eyJzY29wZSI6ImFkbWluIn0")) None)),
     ["getSession"; "GET https://issuer/userinfo"])
  /\ UserInfo_getServerSideProps (Some "https://issuer")
       SampleHandlers.importGetSession SampleHandlers.axios_get
       SampleHandlers.console_error (Some Sample.session_default) []
     = (inr (Guard.redirect "/api/auth/signin" false), ["getSession"]).
Proof.
  split.
  - rewrite (proj2 (UserInfo_request _ _ _ _ (Some "https://issuer")
                      SampleHandlers.importGetSession
                      SampleHandlers.axios_get SampleHandlers.console_error
                      (Some SampleHandlers.session_admin) [] ["getSession"]
                      (Some SampleHandlers.session_admin) eq_refl)
               SampleHandlers.session_admin Sample.token_two_parts
               eq_refl eq_refl ltac:(discriminate)).
    reflexivity.
  - apply (proj1 (UserInfo_request _ _ _ _ (Some "https://issuer")
                    SampleHandlers.importGetSession
                    SampleHandlers.axios_get SampleHandlers.console_error
                    (Some Sample.session_default) [] ["getSession"]
                    (Some Sample.session_default) eq_refl)).
    reflexivity.
Defined.

End UserInfoFacts.

(** ** The pages and the navigation bar *)
Module PageFacts.
Import Pages.

Lemma hasRole_true (session : option Session.t) (roleName : string) :
  Layout.truthy (Layout.hasRole session roleName) = true
  <-> exists s u roles,
      session = Some s /\ Session.user s = Some u
      /\ User.roles u = Some roles
      /\ In roleName (map Role.name roles).
Proof.
  unfold Layout.hasRole. split.
  - destruct session as [s|]; [|discriminate].
    destruct (Session.user s) as [u|] eqn:Hu; [|discriminate].
    destruct (User.roles u) as [roles|] eqn:Hr; [|discriminate].
    cbn [Layout.truthy]. intros H. exists s, u, roles.
    repeat split; try assumption.
    apply existsb_exists in H. destruct H as (role & Hin & Heq).
    apply String.eqb_eq in Heq. subst roleName. now apply in_map.
  - intros (s & u & roles & -> & Hu & Hr & Hin). rewrite Hu, Hr.
    cbn [Layout.truthy]. apply existsb_exists.
    apply in_map_iff in Hin. destruct Hin as (role & <- & Hin).
    exists role. split; [assumption | apply String.eqb_refl].
Qed.

(** X18.  [StaffPage] shows the staff dashboard to holders of a role named
    [staff] and to nobody else, and never fails on a missing session or
    user; once the session status is known, it renders nothing exactly when
    its effect sends the browser to [/unauthorized]; while the status is
    loading it shows the spinner and sends the browser nowhere. *)
Theorem StaffPage_shows_staff_only (session : option Session.t)
  (status : Status) :
  (exists view, StaffPage.render session status = inr view)
  /\ (status = loading ->
      StaffPage.render session status = inr StaffPage.Spinner
      /\ StaffPage.effect session status = None)
  /\ (status <> loading ->
      (StaffPage.render session status = inr StaffPage.Null
       <-> StaffPage.effect session status = Some "/unauthorized")
      /\ (StaffPage.effect session status = None
          <-> Layout.truthy (Layout.hasRole session "staff") = true))
  /\ (forall name email,
         StaffPage.render session status
         = inr (StaffPage.StaffDashboard name email) ->
         exists s u roles,
           session = Some s /\ Session.user s = Some u
           /\ User.roles u = Some roles
           /\ In "staff" (map Role.name roles)
           /\ name = User.name u /\ email = User.email u).
Proof.
  unfold StaffPage.render, StaffPage.effect.
  destruct (Layout.truthy (Layout.hasRole session "staff")) eqn:Hst.
  - pose proof (proj1 (hasRole_true session "staff") Hst)
      as (s & u & roles & -> & Hu & Hr & Hin).
    rewrite Hu. cbn [negb orb].
    split; [destruct status; eexists; reflexivity|].
    split; [intros ->; split; reflexivity|]. split.
    + intros Hl. destruct status; try congruence;
        (split; [split; discriminate | split; reflexivity]).
    + intros name email H. exists s, u, roles.
      destruct status; try discriminate; inversion H; subst; auto 10.
  - cbn [negb]. rewrite orb_true_r.
    split; [destruct status; eexists; reflexivity|].
    split; [intros ->; split; reflexivity|]. split.
    + intros Hl. destruct status; try congruence;
        (split; [split; reflexivity | split; discriminate]).
    + intros name email H. destruct status; discriminate.
Qed.

Lemma StaffPage_shows_staff_only_witness :
  StaffPage.render None authenticated = inr StaffPage.Null
  /\ StaffPage.render (Some Sample.session_staff) authenticated
     = inr (StaffPage.StaffDashboard (Some "A B") (Some "ab@example.org")).
Proof.
  split.
  - apply (proj1 (proj2 (proj2 (StaffPage_shows_staff_only None
                                  authenticated)))
             ltac:(discriminate)).
    reflexivity.
  - destruct (StaffPage_shows_staff_only (Some Sample.session_staff)
                authenticated) as ([view Hv] & _ & _ & Hd).
    rewrite Hv. destruct view as [| |name email];
      try (vm_compute in Hv; discriminate).
    destruct (Hd name email Hv) as (s & u & roles & Hs & Hu & _ & _ & -> & ->).
    inversion Hs; subst s. inversion Hu; subst u. reflexivity.
Defined.

(** X19.  [AdminDashboard]: once the status is known, its effect leaves the
    browser where it is exactly for holders of a role named [admin], and
    sends everybody else to [/unauthorized]; its render, however, tests the
    session only, so that for a signed-in user without the role the
    dashboard is rendered while the effect redirects. *)
Theorem AdminDashboard_guard (session : option Session.t)
  (status : Status) :
  status <> loading ->
  (AdminDashboard.effect session status = None
   <-> Layout.truthy (Layout.hasRole session "admin") = true)
  /\ (AdminDashboard.effect session status = Some "/unauthorized"
      <-> Layout.truthy (Layout.hasRole session "admin") = false)
  /\ (AdminDashboard.render session status = AdminDashboard.Null
      <-> session = None)
  /\ (forall s, session = Some s ->
                AdminDashboard.render session status
                = AdminDashboard.Dashboard).
Proof.
  intros Hl. unfold AdminDashboard.effect, AdminDashboard.render.
  destruct status; try congruence;
    (destruct session as [s|];
     [ destruct (Layout.truthy (Layout.hasRole (Some s) "admin"));
       cbn [negb];
       (split; [split; congruence|]);
       (split; [split; congruence|]);
       (split; [split; congruence|]); intros; reflexivity
     | cbn [Layout.hasRole Layout.truthy JS.undefined];
       (split; [split; congruence|]);
       (split; [split; congruence|]);
       (split; [split; congruence|]); intros; discriminate ]).
Qed.

(** A signed-in [staff] user on the admin dashboard. *)
Lemma AdminDashboard_guard_witness :
  AdminDashboard.effect (Some Sample.session_staff) authenticated
  = Some "/unauthorized"
  /\ AdminDashboard.render (Some Sample.session_staff) authenticated
     = AdminDashboard.Dashboard.
Proof.
  destruct (AdminDashboard_guard (Some Sample.session_staff) authenticated
              ltac:(discriminate)) as (_ & He & _ & Hr).
  split.
  - apply He. reflexivity.
  - apply (Hr Sample.session_staff). reflexivity.
Defined.

Lemma some_role_is_hasRole (s : Session.t) (u : User.t)
  (roleName : string) :
  Session.user s = Some u ->
  DashboardPage.some_role u roleName = Layout.hasRole (Some s) roleName.
Proof.
  intros Hu. unfold DashboardPage.some_role, Layout.hasRole.
  now rewrite Hu.
Qed.

(** X20.  The roles card of [DashboardPage]: the text that stands for "no
    roles" is shown only when the session's user has no roles list at all;
    a list, even the empty one, is rendered as its badges, so that a user
    with an empty list sees neither badge nor text.  The reports link is
    offered exactly to those who get the admin quick access or the staff
    tools. *)
Theorem DashboardPage_roles_card (s : Session.t) (u : User.t)
  (status : Status) :
  status <> loading ->
  Session.user s = Some u ->
  exists c,
    DashboardPage.render (Some s) status
    = inr (DashboardPage.Dashboard c)
    /\ (DashboardPage.roleBadges c = None <-> User.roles u = None)
    /\ (forall roles,
           User.roles u = Some roles ->
           DashboardPage.roleBadges c
           = Some (map (fun role => (Role.id role, Role.name role)) roles))
    /\ DashboardPage.adminQuickAccess c
       = Layout.truthy (Layout.hasRole (Some s) "admin")
    /\ DashboardPage.staffTools c
       = Layout.truthy (Layout.hasRole (Some s) "staff")
    /\ DashboardPage.reportsLink c
       = DashboardPage.adminQuickAccess c || DashboardPage.staffTools c.
Proof.
  intros Hl Hu. unfold DashboardPage.render. rewrite Hu.
  rewrite !(some_role_is_hasRole s u _ Hu).
  destruct status; try congruence;
    (eexists; split; [reflexivity|];
     cbn [DashboardPage.roleBadges DashboardPage.adminQuickAccess
          DashboardPage.staffTools DashboardPage.reportsLink];
     split; [destruct (User.roles u); split; congruence|];
     split; [intros roles ->; reflexivity|];
     split; [reflexivity|]; split; reflexivity).
Qed.

(** A user whose roles list is empty. *)
Lemma DashboardPage_roles_card_witness :
  exists c,
    DashboardPage.render
      (Some (Session.mk
               (Some (User.mk (Some "u3") (Some "Eve") None None (Some [])
                        None None))
               EmptyString None))
      authenticated
    = inr (DashboardPage.Dashboard c)
    /\ DashboardPage.roleBadges c = Some []
    /\ DashboardPage.reportsLink c = false.
Proof.
  destruct (DashboardPage_roles_card
              (Session.mk
                 (Some (User.mk (Some "u3") (Some "Eve") None None (Some [])
                          None None))
                 EmptyString None)
              (User.mk (Some "u3") (Some "Eve") None None (Some []) None None)
              authenticated ltac:(discriminate) eq_refl)
    as (c & Hc & _ & Hb & Ha & Hs & Hr).
  exists c. split; [exact Hc|]. split.
  - apply (Hb []). reflexivity.
  - rewrite Hr, Ha, Hs. reflexivity.
Defined.

(** X21.  What a signed-in user is shown follows from the scopes of the
    access token, when [JSON.stringify] can print its payload: on
    [DashboardPage] the roles card lists the derived roles and never the
    text for "no roles", the admin quick access is there exactly when
    [admin] is among the scopes, the staff tools exactly when [staff] is,
    and the layout's [isAdmin] and [isStaff] are the same two booleans,
    never [undefined]. *)
Theorem pages_after_sign_in (overflows : JS.json -> bool)
  (token token' : JWT.t) (account : Account.t)
  (p : Profile.t) (user : option User.t) (s0 s' : Session.t)
  (sub : string) (tok sc : JS.ustring) (v : JS.json) (status : Status) :
  Console.result
    (NextAuthConfig.jwt overflows token (Some account) (Some p) user)
  = inr token' ->
  NextAuthConfig.session s0 token' = Console.ret s' ->
  Profile.sub p = Some sub -> sub <> EmptyString ->
  Account.access_token account = Some tok ->
  Spec.payload_value tok = Some v ->
  overflows v = false ->
  Spec.scope_claim tok = Some (JS.JStr sc) ->
  status <> loading ->
  Layout.isAdmin (Some s')
  = Some (JS.includes_literal (Spec.scope_tokens sc) "admin")
  /\ Layout.isStaff (Some s')
     = Some (JS.includes_literal (Spec.scope_tokens sc) "staff")
  /\ exists c,
      DashboardPage.render (Some s') status
      = inr (DashboardPage.Dashboard c)
      /\ DashboardPage.roleBadges c
         = Some (map (fun role => (Role.id role, Role.name role))
                   (Flow.roles_of_scopes (Spec.scope_tokens sc)))
      /\ DashboardPage.adminQuickAccess c
         = JS.includes_literal (Spec.scope_tokens sc) "admin"
      /\ DashboardPage.staffTools c
         = JS.includes_literal (Spec.scope_tokens sc) "staff".
Proof.
  intros Hj Hs Hsub Hne Htok Hv Ho Hc Hl.
  destruct (EndToEnd.signed_in_session _ _ _ _ _ _ _ _ _ _ _ _
              Hj Hs Hsub Hne Htok Hv Ho Hc) as (u & Hu & Hr & _).
  assert (Hrole : forall name,
             Layout.hasRole (Some s') name
             = Some (existsb (fun role => String.eqb (Role.name role) name)
                       (Flow.roles_of_scopes (Spec.scope_tokens sc)))).
  { intros name. unfold Layout.hasRole. now rewrite Hu, Hr. }
  assert (Ha : Layout.hasRole (Some s') "admin"
               = Some (JS.includes_literal (Spec.scope_tokens sc) "admin")).
  { rewrite Hrole, EndToEnd.roles_of_scopes_named. cbn.
    now rewrite !andb_false_r, !orb_false_r, andb_true_r. }
  assert (Hst : Layout.hasRole (Some s') "staff"
                = Some (JS.includes_literal (Spec.scope_tokens sc) "staff")).
  { rewrite Hrole, EndToEnd.roles_of_scopes_named. cbn.
    now rewrite !andb_false_r, andb_true_r, orb_false_r. }
  split; [exact Ha|]. split; [exact Hst|].
  unfold DashboardPage.render. rewrite Hu.
  rewrite !(some_role_is_hasRole s' u _ Hu), Ha, Hst, Hr.
  destruct status; try congruence;
    (eexists; split; [reflexivity|]; cbn; repeat split).
Qed.

Lemma pages_after_sign_in_witness :
  exists token' s',
    Console.result
      (NextAuthConfig.jwt Sample.overflows Sample.jwt_bare
         (Some Sample.account) (Some Sample.profile_AB)
         (Some Sample.user_staff)) = inr token'
    /\ NextAuthConfig.session Sample.session_default token'
       = Console.ret s'
    /\ Layout.isAdmin (Some s') = Some true
    /\ Layout.isStaff (Some s') = Some true.
Proof.
  eexists. eexists. split; [reflexivity|]. split; [reflexivity|].
  destruct (pages_after_sign_in Sample.overflows Sample.jwt_bare _
              Sample.account
              Sample.profile_AB (Some Sample.user_staff)
              Sample.session_default _ "u1" Sample.token_admin_staff
              (JS.units "admin staff")
              (JS.JObj [(JS.units "scope",
                         JS.JStr (JS.units "admin staff"))])
              authenticated
              eq_refl eq_refl eq_refl ltac:(discriminate) eq_refl eq_refl
              eq_refl eq_refl ltac:(discriminate)) as (Ha & Hs & _).
  split; [exact Ha | exact Hs].
Defined.

Lemma navbar_hrefs (s : Session.t) (u : User.t) (pathname : string) :
  Session.user s = Some u ->
  exists entries,
    Navigation.navbar (Some s) pathname = inr entries
    /\ flat_map Navigation.hrefs entries
       = (["/"; "/dashboard"]
          ++ (if Layout.truthy (Layout.isAdmin (Some s))
              then ["/admin"; "/admin/users"; "/admin/roles"; "/admin/audit"]
              else [])
          ++ (if Layout.truthy (Layout.isStaff (Some s))
              then ["/staff"] else [])
          ++ ["/reports"; "/activity-log"; "/help";
              "/profile"; "/settings"; "/api/auth/signout"])%list
    /\ (In Navigation.adminMenu entries
        <-> Layout.truthy (Layout.isAdmin (Some s)) = true).
Proof.
  intros Hu. unfold Navigation.navbar. rewrite Hu.
  eexists. split; [reflexivity|].
  destruct (Layout.truthy (Layout.isAdmin (Some s))),
           (Layout.truthy (Layout.isStaff (Some s)));
    (split; [reflexivity|]);
    unfold Navigation.link, Navigation.adminMenu, Navigation.userMenu;
    cbn [app In]; split; intros H; try reflexivity; try discriminate;
    auto 10;
    repeat (destruct H as [H|H]; [discriminate|]); destruct H.
Qed.

(** X22.  The navigation bar: without a session it is the brand alone; for
    a session with a user it never fails, always offers the dashboard, the
    reports, the activity log, the help, the profile, the settings and the
    sign-out, offers the four admin addresses exactly to holders of a role
    named [admin] and [/staff] exactly to holders of a role named [staff];
    it fails on a session without a user. *)
Theorem navbar_links (session : option Session.t) (pathname : string) :
  (session = None ->
   Navigation.navbar session pathname = inr [Navigation.Brand])
  /\ (forall s, session = Some s -> Session.user s = None ->
                Navigation.navbar session pathname = inl JS.TypeError)
  /\ (forall s u,
         session = Some s -> Session.user s = Some u ->
         exists entries,
           Navigation.navbar session pathname = inr entries
           /\ (forall href,
                  In href ["/dashboard"; "/reports"; "/activity-log";
                           "/help"; "/profile"; "/settings";
                           "/api/auth/signout"] ->
                  In href (flat_map Navigation.hrefs entries))
           /\ (forall href,
                  In href ["/admin"; "/admin/users"; "/admin/roles";
                           "/admin/audit"] ->
                  (In href (flat_map Navigation.hrefs entries)
                   <-> Layout.truthy (Layout.hasRole session "admin")
                       = true))
           /\ (In "/staff" (flat_map Navigation.hrefs entries)
               <-> Layout.truthy (Layout.hasRole session "staff") = true)).
Proof.
  split; [intros ->; reflexivity|]. split.
  { intros s -> Hu. unfold Navigation.navbar. now rewrite Hu. }
  intros s u -> Hu.
  destruct (navbar_hrefs s u pathname Hu) as (entries & He & Hh & _).
  exists entries. split; [exact He|]. rewrite Hh.
  unfold Layout.isAdmin, Layout.isStaff.
  destruct (Layout.truthy (Layout.hasRole (Some s) "admin")),
           (Layout.truthy (Layout.hasRole (Some s) "staff"));
    cbn [app]; (split; [|split]).
  all: try (intros href H; cbn [In] in H;
            repeat (destruct H as [<-|H]; [cbn [In]; auto 20|]);
            now destruct H).
  all: try (intros href H; cbn [In] in H;
            repeat (destruct H as [<-|H];
                    [split; [reflexivity | intros _; cbn [In]; auto 20]|]);
            now destruct H).
  all: try (intros href H; cbn [In] in H;
            repeat (destruct H as [<-|H];
                    [split; [|discriminate]; intros H'; cbn [In] in H';
                     repeat (destruct H' as [H'|H']; [discriminate|]);
                     now destruct H'|]);
            now destruct H).
  all: try (split; [reflexivity | intros _; cbn [In]; auto 20]).
  all: split; [|discriminate]; intros H'; cbn [In] in H';
    repeat (destruct H' as [H'|H']; [discriminate|]); now destruct H'.
Qed.

Lemma navbar_links_witness :
  exists entries,
    Navigation.navbar (Some Sample.session_staff) "/staff" = inr entries
    /\ In "/staff" (flat_map Navigation.hrefs entries)
    /\ ~ In "/admin/users" (flat_map Navigation.hrefs entries).
Proof.
  destruct (proj2 (proj2 (navbar_links (Some Sample.session_staff) "/staff"))
              Sample.session_staff Sample.user_staff eq_refl eq_refl)
    as (entries & He & _ & Ha & Hs).
  exists entries. split; [exact He|]. split.
  - apply Hs. reflexivity.
  - intros H. apply (Ha "/admin/users") in H; [discriminate|].
    simpl. auto.
Defined.

(** X23.  [ProfilePage] and [DashboardPage] render the roles of one user
    alike, save for an empty roles list: the profile page then shows the
    text for "no roles", the dashboard neither text nor badge.  With a
    non-empty list both show its badges, with no list both show the
    text. *)
Theorem roles_cards_compared (s : Session.t) (u : User.t)
  (status : Status) :
  status <> loading ->
  Session.user s = Some u ->
  exists p d,
    ProfilePage.render (Some s) status = inr (ProfilePage.Profile p)
    /\ DashboardPage.render (Some s) status
       = inr (DashboardPage.Dashboard d)
    /\ (User.roles u <> Some [] ->
        ProfilePage.roleBadges p = DashboardPage.roleBadges d)
    /\ (User.roles u = Some [] ->
        ProfilePage.roleBadges p = None
        /\ DashboardPage.roleBadges d = Some [])
    /\ ProfilePage.name p = DashboardPage.welcome d.
Proof.
  intros Hl Hu. unfold ProfilePage.render, DashboardPage.render.
  rewrite Hu.
  destruct status; try congruence;
    (do 2 eexists; split; [reflexivity|]; split; [reflexivity|];
     cbn [ProfilePage.roleBadges DashboardPage.roleBadges
          ProfilePage.name DashboardPage.welcome];
     split; [destruct (User.roles u) as [[|r rs]|]; congruence|];
     split; [intros ->; split; reflexivity | reflexivity]).
Qed.

Lemma roles_cards_compared_witness :
  exists p d,
    ProfilePage.render (Some Sample.session_staff) authenticated
    = inr (ProfilePage.Profile p)
    /\ DashboardPage.render (Some Sample.session_staff) authenticated
       = inr (DashboardPage.Dashboard d)
    /\ ProfilePage.roleBadges p = DashboardPage.roleBadges d.
Proof.
  destruct (roles_cards_compared Sample.session_staff Sample.user_staff
              authenticated ltac:(discriminate) eq_refl)
    as (p & d & Hp & Hd & Hsame & _).
  exists p, d. split; [exact Hp|]. split; [exact Hd|].
  apply Hsame. discriminate.
Defined.

End PageFacts.
